(** * netrender/utils.py: a shallow embedding and its verified properties

    The development follows the layout of [netrender/utils.py]:

    - [Py]: exceptions, results and the string operations used;
    - [Backoff]: the class [BreakableIncrementedSleep];
    - [Url]: the URL templates [fileURL], [logURL], [resultURL],
      [renderURL], [cancelURL];
    - [Path]: [prefixPath], over an interface for the host's [os.path] and
      file system, with the POSIX host ([posixpath] and a file system) and
      the Windows host ([ntpath]) as instances;
    - [Net]: [reporting], [clientScan], [clientVerifyVersion] and
      [clientConnection], in a state-and-exception monad;
    - [Ctx]: the context manager [NoErrorDialogContext];
    - [Cache]: [cacheName] and [cachePath];
    - [Results]: [getResults], [_getResults] and the entry point of the
      script;
    - [Dir]: the context manager [DirectoryContext].

    The definitions come first, the properties after them. Python
    integers are [Z]; a Python [str] is a [string], one [ascii] per
    character, for the characters below 256 ([Net] keeps a text decoded
    from bytes as its UTF-8 bytes); [bytes] are [list byte]. *)

From Stdlib Require Import ZArith List Strings.String Strings.Ascii Strings.Byte Bool Lia.
From stdpp Require Import base tactics option list gmap strings pretty.

Import ListNotations.
Local Open Scope Z_scope.
Local Open Scope string_scope.
Local Open Scope list_scope.

(* ===================================================================== *)
(** * Python values shared by the path and the network code *)
(* ===================================================================== *)

Module Py.

(** The exception classes the modelled code raises or meets. [IOError] is
    [OSError]; [SocketTimeout] is [socket.timeout]. *)
Inductive exn_class :=
  | IndexError
  | ValueError
  | UnicodeDecodeError
  | IOError
  | FileNotFoundError
  | FileExistsError
  | NotADirectoryError
  | SocketTimeout
  | ConnectionError
  | HTTPException.

(** An exception: its class and [str(err)]. *)
Inductive exn := Exn (cls : exn_class) (message : string).

Definition exn_cls (e : exn) : exn_class := let 'Exn c _ := e in c.
Definition exn_str (e : exn) : string := let 'Exn _ m := e in m.

(** A call returns a value or raises. *)
Inductive result (A : Type) :=
  | Ok (a : A)
  | Raise (e : exn).
Arguments Ok {A}.
Arguments Raise {A}.

Definition sep : ascii := "/"%char.
Definition backslash : ascii := "\"%char.

(** [len(s)] *)
Definition len (s : string) : nat := String.length s.

(** [s[n:]] for [0 <= n] *)
Fixpoint drop (n : nat) (s : string) : string :=
  match n, s with
  | O, _ => s
  | S n', String _ r => drop n' r
  | S _, EmptyString => EmptyString
  end.

(** [s[i:j]] for [0 <= i <= j] *)
Definition slice (i j : nat) (s : string) : string :=
  String.substring i (j - i) s.

(** [s[0]], which raises [IndexError] on the empty string *)
Definition item0 (s : string) : result ascii :=
  match s with
  | String c _ => Ok c
  | EmptyString => Raise (Exn IndexError "string index out of range")
  end.

(** [s.startswith(pre)] *)
Definition startswith (s pre : string) : bool := String.prefix pre s.

(** [s.endswith(c)] for a character [c] *)
Fixpoint endswith_char (s : string) (c : ascii) : bool :=
  match s with
  | EmptyString => false
  | String a EmptyString => Ascii.eqb a c
  | String _ r => endswith_char r c
  end.

(** [s.rstrip(c)] for a character [c] *)
Fixpoint rstrip_char (s : string) (c : ascii) : string :=
  match s with
  | EmptyString => EmptyString
  | String a r =>
      let r' := rstrip_char r c in
      if Ascii.eqb a c && String.eqb r' "" then EmptyString else String a r'
  end.

(** [s == c * len(s)] for a character [c] *)
Fixpoint all_char (s : string) (c : ascii) : bool :=
  match s with
  | EmptyString => true
  | String a r => Ascii.eqb a c && all_char r c
  end.

(** [s.split(c)] for a character [c] *)
Fixpoint split_char (s : string) (c : ascii) : list string :=
  match s with
  | EmptyString => [EmptyString]
  | String a r =>
      if Ascii.eqb a c then EmptyString :: split_char r c
      else
        match split_char r c with
        | h :: t => String a h :: t
        | [] => [String a EmptyString]
        end
  end.

(** [c.join(l)] for a character [c] *)
Fixpoint join_char (c : ascii) (l : list string) : string :=
  match l with
  | [] => EmptyString
  | [s] => s
  | s :: l' => s +:+ String c (join_char c l')
  end.

(** [(s[:i], s[i:])] for [i = s.rfind(c) + 1] *)
Fixpoint rpartition_after (s : string) (c : ascii) : string * string :=
  match s with
  | EmptyString => (EmptyString, EmptyString)
  | String a r =>
      let '(h, t) := rpartition_after r c in
      if negb (String.eqb h "") then (String a h, t)
      else if Ascii.eqb a c then (String a EmptyString, r)
      else (EmptyString, String a r)
  end.

(** Every character of [s] passes [f]. *)
Fixpoint forall_chars (f : ascii -> bool) (s : string) : bool :=
  match s with
  | EmptyString => true
  | String c r => f c && forall_chars f r
  end.

(** A character of ASCII. *)
Definition is_ascii (c : ascii) : bool := (N_of_ascii c <? 128)%N.

End Py.

(* ===================================================================== *)
(** * BreakableIncrementedSleep *)
(* ===================================================================== *)

Module Backoff.

Section Sleeper.

(** The state of the caller that [break_fct] reads and updates. *)
Variable W : Type.

(** The attributes set by [__init__]. [break_fct] is a callable without
    arguments: here a function of the caller's state returning its answer
    and the new state. *)
Record BreakableIncrementedSleep := mk {
  increment : Z;
  default : Z;
  max : Z;
  current : Z;
  break_fct : W -> bool * W
}.

(** [__init__(self, increment, default_timeout, max_timeout, break_fct)] *)
Definition init (increment default_timeout max_timeout : Z)
    (break_fct : W -> bool * W) : BreakableIncrementedSleep :=
  {| increment := increment;
     default := default_timeout;
     max := max_timeout;
     current := default_timeout;
     break_fct := break_fct |}.

Definition set_current (self : BreakableIncrementedSleep) (v : Z) :=
  {| increment := increment self;
     default := default self;
     max := max self;
     current := v;
     break_fct := break_fct self |}.

(** [self.current = self.default] *)
Definition reset (self : BreakableIncrementedSleep) :=
  set_current self (default self).

(** [self.current = min(self.current + self.increment, self.max)] *)
Definition increase (self : BreakableIncrementedSleep) :=
  set_current self (Z.min (current self + increment self) (max self)).

(** What [sleep] does, in order: [time.sleep(1)], a call of [break_fct]
    with its answer, the call of [self.increase()]. *)
Inductive event :=
  | Slept
  | Checked (b : bool)
  | Increased.

(** The [for] loop of [sleep], for the [n] indices left in
    [range(self.current)]: one [time.sleep(1)], then [break_fct()], and
    [break] when it answers true. *)
Fixpoint sleep_loop (brk : W -> bool * W) (n : nat) (w : W)
    : W * list event :=
  match n with
  | O => (w, [])
  | S n' =>
      let '(b, w1) := brk w in
      if b then (w1, [Slept; Checked true])
      else
        let '(w2, tr) := sleep_loop brk n' w1 in
        (w2, Slept :: Checked false :: tr)
  end.

(** [sleep(self)]: [range(self.current)] is evaluated once and is empty
    for [current <= 0]; [self.increase()] follows the loop. *)
Definition sleep (self : BreakableIncrementedSleep) (w : W)
    : BreakableIncrementedSleep * W * list event :=
  let '(w', tr) := sleep_loop (break_fct self) (Z.to_nat (current self)) w in
  (increase self, w', tr ++ [Increased]).

(** The calls that change [current]. *)
Inductive call := CallReset | CallIncrease.

Definition do_call (self : BreakableIncrementedSleep) (c : call) :=
  match c with
  | CallReset => reset self
  | CallIncrease => increase self
  end.

(** The object after each call of a sequence, in order. *)
Fixpoint run (self : BreakableIncrementedSleep) (cs : list call)
    : list BreakableIncrementedSleep :=
  match cs with
  | [] => []
  | c :: cs' => let self' := do_call self c in self' :: run self' cs'
  end.

(** The object after all the calls of a sequence. *)
Definition after (self : BreakableIncrementedSleep) (cs : list call)
    : BreakableIncrementedSleep :=
  List.fold_left do_call cs self.

(** [default <= current <= max] *)
Definition invariant (self : BreakableIncrementedSleep) : Prop :=
  default self <= current self <= max self.

(** The answers of the first [n] calls of [brk] from [w], and the state
    they leave. *)
Fixpoint answers (brk : W -> bool * W) (n : nat) (w : W) : list bool * W :=
  match n with
  | O => ([], w)
  | S n' =>
      let '(b, w1) := brk w in
      let '(bs, w2) := answers brk n' w1 in
      (b :: bs, w2)
  end.

(** The events of a run of units: a sleep and a check per answer. *)
Definition rounds (bs : list bool) : list event :=
  flat_map (fun b => [Slept; Checked b]) bs.

Definition is_increased (e : event) : bool :=
  match e with Increased => true | _ => false end.

(** How many times [self.increase()] was called in a trace. *)
Definition count_increased (tr : list event) : nat :=
  List.length (List.filter is_increased tr).

Definition is_slept (e : event) : bool :=
  match e with Slept => true | _ => false end.

(** How many times [time.sleep(1)] was called in a trace. *)
Definition count_slept (tr : list event) : nat :=
  List.length (List.filter is_slept tr).

End Sleeper.

Arguments mk {W}.
Arguments increment {W}.
Arguments default {W}.
Arguments max {W}.
Arguments current {W}.
Arguments break_fct {W}.
Arguments init {W}.
Arguments reset {W}.
Arguments increase {W}.
Arguments sleep_loop {W}.
Arguments sleep {W}.
Arguments do_call {W}.
Arguments run {W}.
Arguments after {W}.
Arguments invariant {W}.
Arguments answers {W}.

End Backoff.

(* ===================================================================== *)
(** * URL templates *)
(* ===================================================================== *)

Module Url.
Import Py.

(** [%i] of an integer: its decimal digits, after a minus sign when it is
    negative. *)
Definition fmt_i (n : Z) : string := pretty n.

(** The characters [%i] writes. *)
Definition is_digit_or_minus (c : ascii) : bool :=
  let n := N_of_ascii c in ((48 <=? n) && (n <=? 57) || (n =? 45))%N.

Definition not_underscore (c : ascii) : bool := negb (Ascii.eqb c "_").

(** ["/file_%s_%i" % (job_id, file_index)] *)
Definition fileURL (job_id : string) (file_index : Z) : string :=
  "/file_" +:+ job_id +:+ "_" +:+ fmt_i file_index.

(** ["/log_%s_%i.log" % (job_id, frame_number)] *)
Definition logURL (job_id : string) (frame_number : Z) : string :=
  "/log_" +:+ job_id +:+ "_" +:+ fmt_i frame_number +:+ ".log".

(** ["/result_%s.zip" % job_id] *)
Definition resultURL (job_id : string) : string :=
  "/result_" +:+ job_id +:+ ".zip".

(** ["/render_%s_%i.exr" % (job_id, frame_number)] *)
Definition renderURL (job_id : string) (frame_number : Z) : string :=
  "/render_" +:+ job_id +:+ "_" +:+ fmt_i frame_number +:+ ".exr".

(** ["/cancel_%s" % (job_id)] *)
Definition cancelURL (job_id : string) : string :=
  "/cancel_" +:+ job_id.

(** The five templates with their keys: a request for one artifact. *)
Inductive key :=
  | KFile (job_id : string) (file_index : Z)
  | KLog (job_id : string) (frame_number : Z)
  | KResult (job_id : string)
  | KRender (job_id : string) (frame_number : Z)
  | KCancel (job_id : string).

Definition url (k : key) : string :=
  match k with
  | KFile j i => fileURL j i
  | KLog j f => logURL j f
  | KResult j => resultURL j
  | KRender j f => renderURL j f
  | KCancel j => cancelURL j
  end.

End Url.

(* ===================================================================== *)
(** * prefixPath *)
(* ===================================================================== *)

Module Path.
Import Py.

(** What [prefixPath] uses of the host: [os.path.isabs], [os.path.exists],
    [os.path.split], [os.path.normpath], [os.path.join] and [os.mkdir].
    [os.path] is [posixpath] or [ntpath] by the host; [FS] is the state of
    the host's file system. *)
Class Host := {
  FS : Type;
  isabs : string -> bool;
  exists_ : FS -> string -> bool;
  split : string -> string * string;
  normpath : string -> string;
  join : string -> string -> string;
  mkdir : FS -> string -> result FS
}.

Section PrefixPath.

Context {host : Host}.

(** The condition of the [if] of [prefixPath]:

      os.path.isabs(file_path) or
      len(file_path) >= 3 and (file_path[1:3] == ":/" or file_path[1:3] == ":\\") or
      file_path[0] == "/" or file_path[0] == "\\"

    [and] binds tighter than [or], both stop at the first operand that
    decides, and [file_path[0]] raises on the empty string. *)
Definition is_absolute (file_path : string) : result bool :=
  if isabs file_path then Ok true
  else if (3 <=? len file_path)%nat
          && (String.eqb (slice 1 3 file_path) ":/"
              || String.eqb (slice 1 3 file_path) ":\")
  then Ok true
  else
    match item0 file_path with
    | Raise e => Raise e
    | Ok c =>
        if Ascii.eqb c sep then Ok true
        else
          match item0 file_path with
          | Raise e => Raise e
          | Ok c' => Ok (Ascii.eqb c' backslash)
          end
    end.

(** The statements under [if prefix_path and p.startswith(prefix_path)]
    with [len(prefix_path) < len(p)]: the directory is made with one
    [os.mkdir] when [os.path.exists] does not find it. *)
Definition ensure_directory (fs : FS) (directory : string) : result FS :=
  if negb (exists_ fs directory) then mkdir fs directory else Ok fs.

(** [prefixPath(prefix_directory, file_path, prefix_path, force)], from the
    file system [fs]: the path returned and the file system left, or the
    exception raised. *)
Definition prefixPath (prefix_directory file_path prefix_path : string)
    (force : bool) (fs : FS) : result (string * FS) :=
  match is_absolute file_path with
  | Raise e => Raise e
  | Ok true =>
      let full_path := file_path in
      if force || negb (exists_ fs full_path) then
        let '(p, n) := split (normpath full_path) in
        if negb (String.eqb prefix_path "") && startswith p prefix_path then
          if (len prefix_path <? len p)%nat then
            let directory :=
              join prefix_directory (drop (len prefix_path + 1) p) in
            match ensure_directory fs directory with
            | Raise e => Raise e
            | Ok fs' => Ok (join directory n, fs')
            end
          else
            let directory := prefix_directory in
            Ok (join directory n, fs)
        else Ok (join prefix_directory n, fs)
      else Ok (full_path, fs)
  | Ok false => Ok (join prefix_directory file_path, fs)
  end.




End PrefixPath.

(** ** The POSIX host: [posixpath] and a file system without links *)

(** [posixpath.isabs] *)
Definition posix_isabs (s : string) : bool := startswith s "/".

(** [posixpath.join(a, b)] *)
Definition posix_join (a b : string) : string :=
  if startswith b "/" then b
  else if String.eqb a "" || endswith_char a sep then a +:+ b
  else a +:+ String sep b.

(** [posixpath.split] *)
Definition posix_split (p : string) : string * string :=
  let '(head, tail) := rpartition_after p sep in
  if negb (String.eqb head "") && negb (all_char head sep)
  then (rstrip_char head sep, tail)
  else (head, tail).

(** One round of the loop of [posixpath.normpath]; [new_comps] is kept
    innermost first. *)
Definition normpath_step (initial_slashes : nat) (new_comps : list string)
    (comp : string) : list string :=
  if String.eqb comp "" || String.eqb comp "." then new_comps
  else if negb (String.eqb comp "..")
          || ((initial_slashes =? 0)%nat && bool_decide (new_comps = []))
          || match new_comps with
             | top :: _ => String.eqb top ".."
             | [] => false
             end
  then comp :: new_comps
  else List.tl new_comps.

(** [posixpath.normpath] *)
Definition posix_normpath (path : string) : string :=
  if String.eqb path "" then "."
  else
    let initial_slashes :=
      if startswith path "/" then
        if startswith path "//" && negb (startswith path "///") then 2%nat
        else 1%nat
      else 0%nat in
    let comps := split_char path sep in
    let new_comps := List.fold_left (normpath_step initial_slashes) comps [] in
    let path' := join_char sep (List.rev new_comps) in
    let path'' :=
      match initial_slashes with
      | O => path'
      | 1%nat => "/" +:+ path'
      | _ => "//" +:+ path'
      end in
    if String.eqb path'' "" then "." else path''.

(** A file or directory, by its names from the root, innermost first;
    the root is [[]]. *)
Abbreviation node := (list string).

(** The directories and the files there are, and the working directory.
    The root is always a directory. *)
Record posix_fs := {
  dirs : gset node;
  files : gset node;
  cwd : node
}.

Definition is_dir (fs : posix_fs) (n : node) : bool :=
  bool_decide (n = [] \/ n ∈ dirs fs).

Definition node_exists (fs : posix_fs) (n : node) : bool :=
  is_dir fs n || bool_decide (n ∈ files fs).

Definition enoent : exn := Exn FileNotFoundError "[Errno 2] No such file or directory".
Definition enotdir : exn := Exn NotADirectoryError "[Errno 20] Not a directory".
Definition eexist : exn := Exn FileExistsError "[Errno 17] File exists".

(** Path resolution from the node [cur], a component at a time: an empty
    component and [.] stay, [..] goes to the parent (the root is its own),
    a name goes to the entry of that name. Every step needs [cur] to be a
    directory. *)
Fixpoint walk (fs : posix_fs) (cur : node) (comps : list string)
    : result node :=
  match comps with
  | [] => Ok cur
  | c :: rest =>
      if negb (node_exists fs cur) then Raise enoent
      else if negb (is_dir fs cur) then Raise enotdir
      else if String.eqb c "" || String.eqb c "." then walk fs cur rest
      else if String.eqb c ".." then walk fs (List.tl cur) rest
      else if node_exists fs (c :: cur) then walk fs (c :: cur) rest
      else Raise enoent
  end.

(** Where resolution starts: the root for a path that starts with a
    slash, the working directory otherwise. *)
Definition start (fs : posix_fs) (path : string) : node :=
  if startswith path "/" then [] else cwd fs.

(** [os.path.exists]: [os.stat] succeeds. *)
Definition posix_exists (fs : posix_fs) (path : string) : bool :=
  if String.eqb path "" then false
  else
    match walk fs (start fs path) (split_char path sep) with
    | Ok _ => true
    | Raise _ => false
    end.

(** The components of a path without the empty ones that trailing slashes
    leave at the end. *)
Fixpoint strip_trailing_empty (comps : list string) : list string :=
  match comps with
  | [] => []
  | c :: rest =>
      match strip_trailing_empty rest with
      | [] => if String.eqb c "" then [] else [c]
      | rest' => c :: rest'
      end
  end.

(** [os.mkdir]: the parent of the last name must resolve to a directory
    and the name must be free; one directory is made. *)
Definition posix_mkdir (fs : posix_fs) (path : string) : result posix_fs :=
  if String.eqb path "" then Raise enoent
  else
    match List.rev (strip_trailing_empty (split_char path sep)) with
    | [] => Raise eexist
    | name :: rpre =>
        match walk fs (start fs path) (List.rev rpre) with
        | Raise e => Raise e
        | Ok parent =>
            if negb (is_dir fs parent) then Raise enotdir
            else if String.eqb name "." || String.eqb name ".." then Raise eexist
            else if node_exists fs (name :: parent) then Raise eexist
            else Ok {| dirs := {[ name :: parent ]} ∪ dirs fs;
                       files := files fs;
                       cwd := cwd fs |}
        end
    end.


#[export] Instance posix : Host := {|
  FS := posix_fs;
  isabs := posix_isabs;
  exists_ := posix_exists;
  split := posix_split;
  normpath := posix_normpath;
  join := posix_join;
  mkdir := posix_mkdir
|}.

(** A file system from the lists of its directories and files, given as
    paths from the root (outermost name first). *)
Definition fs_of (ds fl : list (list string)) (wd : list string) : posix_fs :=
  {| dirs := list_to_set (List.map (@List.rev string) ds);
     files := list_to_set (List.map (@List.rev string) fl);
     cwd := List.rev wd |}.


(** A host on which the job directory [/tmp/job] has been made, and
    nothing else. *)
Definition job_fs : posix_fs := fs_of [["tmp"]; ["tmp"; "job"]] [] [].

(** The same host once [/tmp/job/proj] has been made too. *)
Definition job_proj_fs : posix_fs :=
  fs_of [["tmp"]; ["tmp"; "job"]; ["tmp"; "job"; "proj"]] [] [].

(** ** The Windows host: [ntpath], as the module is in Python 3.11 *)






















Section NtHost.

(** The file system of the Windows host is left open: its type,
    [os.path.exists] and [os.mkdir]. *)
Variable NtFS : Type.
Variable nt_exists : NtFS -> string -> bool.
Variable nt_mkdir : NtFS -> string -> result NtFS.


End NtHost.


End Path.

(* ===================================================================== *)
(** * reporting, clientScan, clientVerifyVersion, clientConnection *)
(* ===================================================================== *)

Module Net.
Import Py.

(** ** Bytes and text *)

(** A text decoded from bytes is kept as its UTF-8 bytes, one [ascii] per
    byte; texts written in the source are ASCII. *)

#[export] Instance byte_eq_decision : EqDecision byte := Byte.byte_eq_dec.

Definition byte_in (lo hi : N) (b : byte) : bool :=
  ((lo <=? Byte.to_N b) && (Byte.to_N b <=? hi))%N.

Definition continuation (b : byte) : bool := byte_in 0x80 0xBF b.

(** The first two bytes of a well-formed sequence of three bytes: no
    overlong form, no surrogate. *)
Definition lead3 (b0 b1 : byte) : bool :=
  (byte_in 0xE0 0xE0 b0 && byte_in 0xA0 0xBF b1)
  || (byte_in 0xE1 0xEC b0 && continuation b1)
  || (byte_in 0xED 0xED b0 && byte_in 0x80 0x9F b1)
  || (byte_in 0xEE 0xEF b0 && continuation b1).

(** The first two bytes of a well-formed sequence of four bytes: no
    overlong form, nothing above U+10FFFF. *)
Definition lead4 (b0 b1 : byte) : bool :=
  (byte_in 0xF0 0xF0 b0 && byte_in 0x90 0xBF b1)
  || (byte_in 0xF1 0xF3 b0 && continuation b1)
  || (byte_in 0xF4 0xF4 b0 && byte_in 0x80 0x8F b1).

(** The bytes are well-formed UTF-8: what the strict decoder accepts. *)
Fixpoint utf8_valid (bs : list byte) : bool :=
  match bs with
  | [] => true
  | b0 :: r0 =>
      if byte_in 0x00 0x7F b0 then utf8_valid r0
      else
        match r0 with
        | [] => false
        | b1 :: r1 =>
            if byte_in 0xC2 0xDF b0 && continuation b1 then utf8_valid r1
            else
              match r1 with
              | [] => false
              | b2 :: r2 =>
                  if lead3 b0 b1 && continuation b2 then utf8_valid r2
                  else
                    match r2 with
                    | [] => false
                    | b3 :: r3 =>
                        if lead4 b0 b1 && continuation b2 && continuation b3
                        then utf8_valid r3
                        else false
                    end
              end
        end
  end.

(** [bytes(s, encoding='utf8')] of an ASCII text, and of a text already
    kept as UTF-8. *)
Definition bytes_of (s : string) : list byte := list_byte_of_string s.

(** [str(b, encoding='utf8')]: strict decoding. *)
Definition str_utf8 (b : list byte) : result string :=
  if utf8_valid b then Ok (string_of_list_byte b)
  else Raise (Exn UnicodeDecodeError "'utf-8' codec can't decode bytes").

Definition is_ascii_text (s : string) : bool :=
  List.forallb (byte_in 0x00 0x7F) (list_byte_of_string s).

(** ** [int] of a text *)

(** The blanks [int] skips at both ends of an ASCII text. *)
Definition is_space (c : ascii) : bool :=
  let n := N_of_ascii c in ((9 <=? n) && (n <=? 13) || (n =? 32))%N.

Definition digit_of (c : ascii) : option Z :=
  let n := N_of_ascii c in
  if ((48 <=? n) && (n <=? 57))%N then Some (Z.of_N n - 48) else None.

Fixpoint lstrip_space (s : string) : string :=
  match s with
  | String c r => if is_space c then lstrip_space r else s
  | EmptyString => s
  end.

Fixpoint all_space (s : string) : bool :=
  match s with
  | String c r => is_space c && all_space r
  | EmptyString => true
  end.

(** The digits after one digit has been read, [acc] being the value so
    far: more digits, each possibly after one underscore; the value and
    what follows the digits, or nothing when an underscore is not followed
    by a digit. *)
Fixpoint int_digits (acc : Z) (s : string) : option (Z * string) :=
  match s with
  | EmptyString => Some (acc, s)
  | String c r =>
      match digit_of c with
      | Some d => int_digits (10 * acc + d) r
      | None =>
          if Ascii.eqb c "_" then
            match r with
            | String c' r' =>
                match digit_of c' with
                | Some d => int_digits (10 * acc + d) r'
                | None => None
                end
            | EmptyString => None
            end
          else Some (acc, s)
      end
  end.

(** The digits of a literal and what follows them. *)
Definition int_magnitude (s : string) : option (Z * string) :=
  match s with
  | String c r =>
      match digit_of c with
      | Some d => int_digits d r
      | None => None
      end
  | EmptyString => None
  end.

Definition invalid_literal : exn :=
  Exn ValueError "invalid literal for int() with base 10".

(** [int(s)] for an ASCII text: blanks, a sign, digits, blanks. *)
Definition int_ascii (s : string) : result Z :=
  let s1 := lstrip_space s in
  let '(sign, s2) :=
    match s1 with
    | String "+" r => (1, r)
    | String "-" r => (-1, r)
    | _ => (1, s1)
    end in
  match int_magnitude s2 with
  | Some (v, rest) => if all_space rest then Ok (sign * v) else Raise invalid_literal
  | None => Raise invalid_literal
  end.

(** The value of a run of decimal digits, most significant first. *)
Definition decimal_value (ds : list Z) : Z :=
  List.fold_left (fun acc d => 10 * acc + d) ds 0.

(** The ASCII character of a digit. *)
Definition digit_char (d : Z) : ascii := ascii_of_N (Z.to_N (48 + d)).

Definition digits_text (ds : list Z) : string :=
  string_of_list_ascii (List.map digit_char ds).

(** The bytes of a run of decimal digits in ASCII. *)
Definition digits_bytes (ds : list Z) : list byte :=
  List.map (fun d => byte_of_ascii (digit_char d)) ds.

Definition is_digit (d : Z) : Prop := 0 <= d <= 9.

(** ** The state the calls read and change *)

(** [{'ERROR'}] and [{'INFO'}] *)
Inductive severity := ERROR | INFO.

(** The argument [report]: [None], or the callable that takes the
    messages. *)
Inductive reporter := NoReport | Report.

Record world := {
  stdout : list string;                  (* the lines printed, oldest first *)
  reported : list (severity * string);   (* the calls of [report], oldest first *)
  sock_open : bool;                      (* the connection's socket is open *)
  defaulttimeout : option Z              (* [socket.getdefaulttimeout()] *)
}.

Definition set_stdout (w : world) (v : list string) : world :=
  {| stdout := v; reported := reported w; sock_open := sock_open w;
     defaulttimeout := defaulttimeout w |}.
Definition set_reported (w : world) (v : list (severity * string)) : world :=
  {| stdout := stdout w; reported := v; sock_open := sock_open w;
     defaulttimeout := defaulttimeout w |}.
Definition set_sock_open (w : world) (v : bool) : world :=
  {| stdout := stdout w; reported := reported w; sock_open := v;
     defaulttimeout := defaulttimeout w |}.
Definition set_defaulttimeout (w : world) (v : option Z) : world :=
  {| stdout := stdout w; reported := reported w; sock_open := sock_open w;
     defaulttimeout := v |}.

(** The state after a message of severity [t] went to [report]. *)
Definition told (report : reporter) (t : severity) (message : string)
    (w : world) : world :=
  match report with
  | Report => set_reported w (reported w ++ [(t, message)])
  | NoReport => w
  end.

(** A computation: from a state, a value or an exception, and the state
    left. *)
Definition M (A : Type) : Type := world -> result A * world.

Definition ret {A} (a : A) : M A := fun w => (Ok a, w).
Definition raise {A} (e : exn) : M A := fun w => (Raise e, w).
Definition bind {A B} (m : M A) (k : A -> M B) : M B :=
  fun w =>
    match m w with
    | (Ok a, w') => k a w'
    | (Raise e, w') => (Raise e, w')
    end.
Definition lift {A} (r : result A) : M A := fun w => (r, w).

(** [try: m / except <classes that catches accepts> as err: handler] *)
Definition try_except {A} (m : M A) (catches : exn -> bool)
    (handler : exn -> M A) : M A :=
  fun w =>
    match m w with
    | (Ok a, w') => (Ok a, w')
    | (Raise e, w') => if catches e then handler e w' else (Raise e, w')
    end.

(** [with ctx: body], for a context whose [__exit__] returns [None]: the
    exit runs on every way out and the exception of the body goes on. *)
Definition with_context {A} (enter exit_ : M unit) (body : M A) : M A :=
  fun w =>
    match enter w with
    | (Raise e, w1) => (Raise e, w1)
    | (Ok _, w1) =>
        match body w1 with
        | (r, w2) =>
            match exit_ w2 with
            | (Ok _, w3) => (r, w3)
            | (Raise e, w3) => (Raise e, w3)
            end
        end
    end.

Definition get {A} (f : world -> A) : M A := fun w => (Ok (f w), w).
Definition modify (f : world -> world) : M unit := fun w => (Ok tt, f w).

Declare Scope py_scope.
Delimit Scope py_scope with py.
Notation "x <- m ;; k" := (bind m (fun x => k))
  (at level 100, m at next level, right associativity) : py_scope.
Notation "m ;; k" := (bind m (fun _ => k))
  (at level 100, right associativity) : py_scope.
Local Open Scope py_scope.

(** ** The network *)

(** What [socket()], [bind(('', 8000))] and [recvfrom(64)] end in within
    the thirty seconds of [settimeout(30)]: an exception ([socket.timeout]
    when nothing arrives) or a datagram and its sender. *)
Inductive recv_event :=
  | RecvRaises (e : exn)
  | RecvPacket (payload : list byte) (sender : string * Z).

(** What the server at an address does with [GET /version]: the request
    fails, no response comes, or a response with its status and what
    reading its body gives. *)
Inductive server_event :=
  | RequestRaises (e : exn)
  | ResponseRaises (e : exn)
  | Response (status : Z) (body : result (list byte)).

Record network := {
  recv : recv_event;
  serve : string -> Z -> bool -> server_event
}.

(** [netsettings]: the attributes read. *)
Record netsettings := {
  server_address : string;
  server_port : Z;
  use_ssl : bool
}.

(** An [HTTPConnection] or [HTTPSConnection] object: what it was made
    with. Its socket is [sock_open] of the state. *)
Record connection := {
  conn_address : string;
  conn_port : Z;
  conn_ssl : bool;
  conn_timeout : option Z
}.

Record response := {
  status : Z;
  body : result (list byte)
}.

(** [http.client.OK] *)
Definition OK : Z := 200.

Section Calls.

(** [netrender.bl_info["version"]], a tuple of integers. *)
Variable version : list Z.

(** [platform.system() == "Darwin"] *)
Variable darwin : bool.

(** [int] of a text with a character outside ASCII, where Python also
    takes the other decimal digits and blanks of Unicode. *)
Variable int_unicode : string -> result Z.

Variable net : network.

(** [VERSION = bytes(".".join((str(n) for n in netrender.bl_info["version"])), encoding='utf8')] *)
Definition VERSION : list byte :=
  bytes_of (join_char "." (List.map (fun n : Z => pretty n) version)).

(** [int(s)] *)
Definition py_int (s : string) : result Z :=
  if is_ascii_text s then int_ascii s else int_unicode s.

(** [print(...)]: one more line. *)
Definition print (line : string) : M unit :=
  modify (fun w => set_stdout w (stdout w ++ [line])).

(** [report({t}, message)] *)
Definition call_report (t : severity) (message : string) : M unit :=
  modify (fun w => set_reported w (reported w ++ [(t, message)])).

(** [with ConnectionContext(timeout): body]. On Darwin the default
    timeout of sockets is set for the body and put back after it; on the
    other systems the three methods are [pass]. [__init__] reads the
    default timeout. *)
Definition ConnectionContext {A} (timeout : option Z) (body : M A) : M A :=
  if darwin then
    old_timeout <- get defaulttimeout ;;
    let changes := negb (bool_decide (old_timeout = timeout)) in
    with_context
      (if changes then modify (fun w => set_defaulttimeout w timeout) else ret tt)
      (if changes then modify (fun w => set_defaulttimeout w old_timeout) else ret tt)
      body
  else body.

(** [reporting(report, message, errorType = None)] *)
Definition reporting (report : reporter) (message : string)
    (errorType : option exn_class) : M unit :=
  let t := match errorType with Some _ => ERROR | None => INFO end in
  match report with
  | Report => call_report t message ;; ret tt
  | NoReport =>
      match errorType with
      | Some c => raise (Exn c message)
      | None => ret tt
      end
  end.

(** The socket calls of [clientScan] up to [recvfrom(64)], which keeps at
    most 64 bytes of the datagram. *)
Definition recvfrom64 : M (list byte * (string * Z)) :=
  match recv net with
  | RecvRaises e => raise e
  | RecvPacket payload sender => ret (List.firstn 64 payload, sender)
  end.

Definition is_socket_timeout (e : exn) : bool :=
  match exn_cls e with SocketTimeout => true | _ => false end.

(** [clientScan(report = None)] *)
Definition clientScan (report : reporter) : M (string * Z) :=
  try_except
    (p <- recvfrom64 ;;
     let '(buf, address) := p in
     let address := fst address in
     text <- lift (str_utf8 buf) ;;
     port <- lift (py_int text) ;;
     reporting report "Master server found" None ;;
     ret (address, port))
    is_socket_timeout
    (fun _ =>
     reporting report "No master server on network" (Some IOError) ;;
     ret ("", 8000)).

(** [conn.request("GET", "/version")]: the socket is opened. *)
Definition request_version (conn : connection) : M unit :=
  match serve net (conn_address conn) (conn_port conn) (conn_ssl conn) with
  | RequestRaises e => raise e
  | _ => modify (fun w => set_sock_open w true)
  end.

(** [conn.getresponse()]. The library closes the socket here when the
    response is one that ends the connection; that is not modelled, and
    no property speaks of the socket of a connection that is returned. *)
Definition getresponse (conn : connection) : M response :=
  match serve net (conn_address conn) (conn_port conn) (conn_ssl conn) with
  | RequestRaises e => raise e
  | ResponseRaises e => raise e
  | Response st b => ret {| status := st; body := b |}
  end.

(** [conn.close()] *)
Definition close : M unit := modify (fun w => set_sock_open w false).

(** [clientVerifyVersion(conn)] *)
Definition clientVerifyVersion (conn : connection) : M bool :=
  ConnectionContext None (request_version conn) ;;
  response <- getresponse conn ;;
  if negb (Z.eqb (status response) OK) then
    close ;;
    ret false
  else
    server_version <- lift (body response) ;;
    if negb (bool_decide (server_version = VERSION)) then
      print "Incorrect server version!" ;;
      expected <- lift (str_utf8 VERSION) ;;
      received <- lift (str_utf8 server_version) ;;
      print ("expected " +:+ expected +:+ " received " +:+ received) ;;
      ret false
    else ret true.

(** The [try] statement of [clientConnection], for the address and port
    settled before it: the connection object is made, the version is
    verified, and any exception ends in [None], told to [report] or
    printed. *)
Definition try_connection (address : string) (port : Z) (use_ssl : bool)
    (report : reporter) (timeout : Z) : M (option connection) :=
  try_except
    (conn <-
       (if darwin then
          ConnectionContext (Some timeout)
            (ret {| conn_address := address; conn_port := port;
                    conn_ssl := use_ssl; conn_timeout := None |})
        else
          ret {| conn_address := address; conn_port := port;
                 conn_ssl := use_ssl; conn_timeout := Some timeout |}) ;;
     ok <- clientVerifyVersion conn ;;
     if ok then ret (Some conn)
     else
       close ;;
       reporting report "Incorrect master version" (Some ValueError) ;;
       ret None)
    (fun _ => true)
    (fun err =>
       match report with
       | Report => call_report ERROR (exn_str err) ;; ret None
       | NoReport => print (exn_str err) ;; ret None
       end).

(** [clientConnection(netsettings, report = None, scan = True, timeout = 5)]:
    the connection returned, or [None]. *)
Definition clientConnection (settings : netsettings) (report : reporter)
    (scan : bool) (timeout : Z) : M (option connection) :=
  let address := server_address settings in
  let port := server_port settings in
  let use_ssl := use_ssl settings in
  if String.eqb address "[default]" then
    if negb scan then ret None
    else
      found <- clientScan NoReport ;;
      let '(address, port) := found in
      if String.eqb address "" then ret None
      else try_connection address port use_ssl report timeout
  else try_connection address port use_ssl report timeout.

(** The address and port [clientConnection] goes on with, from the state
    [w]: those of the settings, or those found by [clientScan()] when the
    address of the settings is ["[default]"] and scanning is allowed. *)
Definition target (settings : netsettings) (scan : bool) (w : world)
    (address : string) (port : Z) : Prop :=
  (String.eqb (server_address settings) "[default]" = false
   /\ address = server_address settings /\ port = server_port settings)
  \/ (String.eqb (server_address settings) "[default]" = true
      /\ scan = true
      /\ fst (clientScan NoReport w) = Ok (address, port)
      /\ String.eqb address "" = false).

(** The response to [GET /version] is one the handshake refuses: a
    status other than [OK], or a body other than [VERSION]. *)
Definition refused (st : Z) (body : result (list byte)) : Prop :=
  st <> OK \/ exists b, body = Ok b /\ b <> VERSION.

(** A refused response whose differing body, if it is read, can be
    decoded for the message printed. *)
Definition refused_readably (st : Z) (body : result (list byte)) : Prop :=
  st <> OK \/ exists b, body = Ok b /\ b <> VERSION /\ utf8_valid b = true.

(** What [clientConnection] owes its caller after a refused handshake:
    the answer [None] with no exception, and, when the message of
    [clientVerifyVersion] could be printed, a closed connection and the
    failure told: to [report] as an error, or else on the standard
    output. *)
Definition refusal_observed (report : reporter) (st : Z)
    (body : result (list byte)) (w : world)
    (out : result (option connection) * world) : Prop :=
  fst out = Ok None
  /\ defaulttimeout (snd out) = defaulttimeout w
  /\ (refused_readably st body ->
      sock_open (snd out) = false
      /\ match report with
         | Report =>
             reported (snd out)
             = reported w ++ [(ERROR, "Incorrect master version")]
         | NoReport =>
             reported (snd out) = reported w
             /\ exists lines,
                  stdout (snd out)
                  = stdout w ++ lines ++ ["Incorrect master version"]
         end).

End Calls.

(** A computation that leaves the default timeout of sockets as it found
    it, on every way out. *)
Definition keeps_timeout {A} (m : M A) : Prop :=
  forall w, defaulttimeout (snd (m w)) = defaulttimeout w.

(** The handshake the server at an address passes: status [OK] and the
    body [VERSION]. *)
Definition accepted (version : list Z) (net : network)
    (address : string) (port : Z) (ssl : bool) : Prop :=
  serve net address port ssl = Response OK (Ok (VERSION version)).

(** ** A client and small networks to run the calls on *)

Definition initial_world : world :=
  {| stdout := []; reported := []; sock_open := false; defaulttimeout := None |}.

Definition timed_out : exn := Exn SocketTimeout "timed out".

(** No master broadcasts; the server at every address answers
    [GET /version] with [st] and [body]. *)
Definition mock_master (st : Z) (body : list byte) : network :=
  {| recv := RecvRaises timed_out;
     serve := fun _ _ _ => Response st (Ok body) |}.

(** A master at [sender] broadcasts [payload]; no server answers. *)
Definition broadcasting (payload : list byte) (sender : string * Z) : network :=
  {| recv := RecvPacket payload sender;
     serve := fun _ _ _ => RequestRaises (Exn ConnectionError "Connection refused") |}.

(** An [int] that takes no text outside ASCII. *)
Definition int_ascii_only (s : string) : result Z := Raise invalid_literal.

Definition explicit_settings : netsettings :=
  {| server_address := "192.168.0.2"; server_port := 8000; use_ssl := false |}.

Definition default_settings : netsettings :=
  {| server_address := "[default]"; server_port := 8000; use_ssl := false |}.

End Net.

(* ===================================================================== *)
(** * The context manager NoErrorDialogContext *)
(* ===================================================================== *)

Module Ctx.
Import Py.

(** A computation over a state of type [S]. *)
Definition M (S A : Type) : Type := S -> result A * S.

(** [with ctx: body], for a context whose [__exit__] returns [None]:
    when [__enter__] raises, nothing more runs; else the exit runs on
    every way out of the body, and the exception of the body goes on. *)
Definition with_ {S A} (enter exit_ : M S unit) (body : M S A) : M S A :=
  fun s =>
    match enter s with
    | (Raise e, s1) => (Raise e, s1)
    | (Ok _, s1) =>
        match body s1 with
        | (r, s2) =>
            match exit_ s2 with
            | (Ok _, s3) => (r, s3)
            | (Raise e, s3) => (Raise e, s3)
            end
        end
    end.

(** [a >= b] on [str]: the order of the first characters that differ,
    a proper prefix coming first. *)
Definition str_ge (a b : string) : bool :=
  match String.compare a b with
  | Lt => false
  | _ => true
  end.

(** The condition under which the class that sets the error mode is the
    one defined:
    [system in {'Windows', 'win32'} and platform.version() >= '5']. *)
Definition sets_error_mode (system version : string) : bool :=
  (String.eqb system "Windows" || String.eqb system "win32")
  && str_ge version "5".

(** [ctypes.windll.kernel32.SetErrorMode(mode)]: the error mode of the
    process, the state here, becomes [mode]; the mode before is
    returned. *)
Definition SetErrorMode (mode : Z) : M Z Z := fun current => (Ok current, mode).

(** [__enter__] of the class for Windows: the mode is read by setting
    [0x0002], and set to what it was with the bit [0x0002] added; the
    value read is kept in [self.val], returned here. *)
Definition error_mode_enter : M Z Z :=
  fun mode0 =>
    match SetErrorMode 0x0002 mode0 with
    | (Ok val, mode1) =>
        match SetErrorMode (Z.lor val 0x0002) mode1 with
        | (_, mode2) => (Ok val, mode2)
        end
    | (Raise e, mode1) => (Raise e, mode1)
    end.

(** [__exit__] of the class for Windows: [SetErrorMode(self.val)]. *)
Definition error_mode_exit (val : Z) : M Z unit :=
  fun mode =>
    match SetErrorMode val mode with
    | (_, mode') => (Ok tt, mode')
    end.

(** [with NoErrorDialogContext(): body]; in the class for the other
    systems the methods are [pass]. *)
Definition NoErrorDialogContext (system version : string) {A}
    (body : M Z A) : M Z A :=
  if sets_error_mode system version then
    fun mode0 =>
      match error_mode_enter mode0 with
      | (Ok val, mode1) =>
          with_ (fun m => (Ok tt, m)) (error_mode_exit val) body mode1
      | (Raise e, mode1) => (Raise e, mode1)
      end
  else body.

End Ctx.

(* ===================================================================== *)
(** * cacheName and cachePath *)
(* ===================================================================== *)

Module Cache.
Import Py.

(** One digit of [%X]. *)
Definition hex_digit (n : N) : ascii :=
  match n with
  | 0 => "0" | 1 => "1" | 2 => "2" | 3 => "3" | 4 => "4" | 5 => "5"
  | 6 => "6" | 7 => "7" | 8 => "8" | 9 => "9" | 10 => "A" | 11 => "B"
  | 12 => "C" | 13 => "D" | 14 => "E" | _ => "F"
  end%char%N.

(** The digits of [n] before [acc], the last digit first made; [fuel]
    bounds their number. *)
Fixpoint hex_go (fuel : nat) (n : N) (acc : string) : string :=
  match fuel with
  | O => acc
  | S fuel' =>
      if (n =? 0)%N then acc
      else hex_go fuel' (n / 16)%N (String (hex_digit (n mod 16)%N) acc)
  end.

(** ["%X" % n] *)
Definition fmt_X (n : N) : string :=
  if (n =? 0)%N then "0" else hex_go (N.size_nat n) n "".

(** ["%02X" % n]: two digits at least, with a zero ahead of a single
    one. *)
Definition fmt_02X (n : N) : string :=
  let s := fmt_X n in
  if (String.length s <? 2)%nat then "0" +:+ s else s.

(** [cacheName(ob, point_cache)]. Of [ob] the name is read, here the
    code points [ord(c)] of its characters; of [point_cache], its
    name. *)
Definition cacheName (ob_name : list N) (point_cache_name : string) : string :=
  let name := point_cache_name in
  if String.eqb name "" then String.concat "" (List.map fmt_02X ob_name)
  else name.

(** The value of a digit of [%X]. *)
Definition hex_value (c : ascii) : option N :=
  let n := N_of_ascii c in
  if ((48 <=? n) && (n <=? 57))%N then Some (n - 48)%N
  else if ((65 <=? n) && (n <=? 70))%N then Some (n - 55)%N
  else None.

(** Reading a text two digits at a time. *)
Fixpoint decode_pairs (s : string) : option (list N) :=
  match s with
  | EmptyString => Some []
  | String hi (String lo rest) =>
      match hex_value hi, hex_value lo, decode_pairs rest with
      | Some h, Some l, Some ns => Some ((16 * h + l)%N :: ns)
      | _, _, _ => None
      end
  | String _ EmptyString => None
  end.

(** [s.rfind(c)] for a character [c]: its last index in [s], or [-1]. *)
Fixpoint rfind_go (s : string) (c : ascii) (i best : Z) : Z :=
  match s with
  | EmptyString => best
  | String a r => rfind_go r c (i + 1) (if Ascii.eqb a c then i else best)
  end.

Definition rfind (s : string) (c : ascii) : Z := rfind_go s c 0 (-1).

(** [posixpath.splitext]: the text is cut at its last dot when the dot
    comes after the last slash and after a character of the file name
    that is no dot. *)
Definition posix_splitext (p : string) : string * string :=
  let sepIndex := rfind p sep in
  let dotIndex := rfind p "." in
  if Z.ltb sepIndex dotIndex
     && negb (all_char (slice (Z.to_nat (sepIndex + 1)) (Z.to_nat dotIndex) p) ".")
  then (slice 0 (Z.to_nat dotIndex) p, drop (Z.to_nat dotIndex) p)
  else (p, "").

(** [cachePath(file_path)], on a POSIX host, where [os.sep] is ["/"]. *)
Definition cachePath (file_path : string) : string :=
  let '(path, name) := Path.posix_split file_path in
  let '(root, ext) := posix_splitext name in
  path +:+ "/" +:+ "blendcache_" +:+ root.

(** A check passes on every number below [k]. *)
Fixpoint all_below (k : nat) (f : N -> bool) : bool :=
  match k with
  | O => true
  | S k' => f (N.of_nat k') && all_below k' f
  end.

Definition no_sep (c : ascii) : bool := negb (Ascii.eqb c sep).
Definition no_dot (c : ascii) : bool := negb (Ascii.eqb c ".").

End Cache.

(* ===================================================================== *)
(** * getResults, _getResults and the script's entry point *)
(* ===================================================================== *)

Module Results.
Import Py.

(** [str(n)] of an [int] *)
Definition str_int (n : Z) : string := pretty n.

(** What one element [r] of [frame_ranges] adds to [frame_arguments]:
    a range when [len(r) == 2], else the single frame [r[0]]. *)
Definition range_arguments (r : list Z) : result (list string) :=
  match r with
  | [s; e] => Ok ["-s"; str_int s; "-e"; str_int e; "-a"]
  | f :: _ => Ok ["-f"; str_int f]
  | [] => Raise (Exn IndexError "index out of range")
  end.

(** [frame_arguments] after the loop over [frame_ranges]. *)
Fixpoint frame_arguments (frame_ranges : list (list Z))
    : result (list string) :=
  match frame_ranges with
  | [] => Ok []
  | r :: rest =>
      match range_arguments r with
      | Raise e => Raise e
      | Ok a =>
          match frame_arguments rest with
          | Raise e => Raise e
          | Ok b => Ok (a ++ b)
          end
      end
  end.

(** What [getResults] reads of the process: [sys.argv[0]],
    [bpy.app.tempdir], [bpy.path.abspath(bpy.context.scene.render.filepath)]
    and [__file__]. *)
Record process := {
  argv0 : string;
  tempdir : string;
  output : string;
  script : string
}.

Section Arguments.

(** [os.path.join] *)
Variable join : string -> string -> string.

(** The list [arguments] that [getResults] starts the subprocess with. *)
Definition arguments (p : process) (server_address : string)
    (server_port : Z) (job_id : string)
    (resolution_x resolution_y resolution_percentage : Z)
    (frame_ranges : list (list Z)) : result (list string) :=
  match frame_arguments frame_ranges with
  | Raise e => Raise e
  | Ok frame_args =>
      let filepath := join (tempdir p) "netrender_temp.blend" in
      Ok ([argv0 p; "-b"; "-noaudio"; filepath; "-o"; output p;
           "-P"; script p]
          ++ frame_args
          ++ ["--"; "GetResults"; server_address; str_int server_port;
              job_id; str_int resolution_x; str_int resolution_y;
              str_int resolution_percentage])
  end.

End Arguments.

(** The attributes [_getResults] assigns, of
    [bpy.context.scene.network_render] (the first three) and of
    [bpy.context.scene.render]. *)
Inductive attribute :=
  | server_address
  | server_port
  | job_id
  | engine
  | resolution_x
  | resolution_y
  | resolution_percentage
  | use_full_sample
  | use_compositing
  | use_border.

Inductive value :=
  | VStr (s : string)
  | VInt (n : Z)
  | VBool (b : bool).

(** One assignment [object.attribute = value]. *)
Definition assignment : Type := attribute * value.

Section Entry.

(** [int] of a text *)
Variable int : string -> result Z.

(** [_getResults]: the assignments made, in their order, and the
    exception that ended the call, if one did. *)
Definition _getResults (address port job res_x res_y res_percentage : string)
    : list assignment * option exn :=
  let t0 := [(server_address, VStr address)] in
  match int port with
  | Raise e => (t0, Some e)
  | Ok port' =>
      let t1 := t0 ++ [(server_port, VInt port'); (job_id, VStr job);
                       (engine, VStr "NET_RENDER")] in
      match int res_x with
      | Raise e => (t1, Some e)
      | Ok x =>
          let t2 := t1 ++ [(resolution_x, VInt x)] in
          match int res_y with
          | Raise e => (t2, Some e)
          | Ok y =>
              let t3 := t2 ++ [(resolution_y, VInt y)] in
              match int res_percentage with
              | Raise e => (t3, Some e)
              | Ok pc =>
                  (t3 ++ [(resolution_percentage, VInt pc);
                          (use_full_sample, VBool false);
                          (use_compositing, VBool false);
                          (use_border, VBool false)], None)
              end
          end
      end
  end.

End Entry.

(** [l.index(x)] of a list of texts: the first position of [x]. *)
Fixpoint list_index (x : string) (l : list string) : option nat :=
  match l with
  | [] => None
  | y :: r => if String.eqb y x then Some O else option_map S (list_index x r)
  end.

(** [start] of the entry point: after the first ["--"], or [0]. *)
Definition start (argv : list string) : nat :=
  match list_index "--" argv with
  | Some i => S i
  | None => O
  end.

(** [l[i]] *)
Definition item (l : list string) (i : nat) : result string :=
  match List.nth_error l i with
  | Some s => Ok s
  | None => Raise (Exn IndexError "list index out of range")
  end.

(** What the entry point goes on to do: evaluate and print each of the
    texts, call [_getResults] with six texts, or nothing. *)
Inductive call :=
  | FileInfo (infos : list string)
  | GetResults (address port job res_x res_y res_percentage : string)
  | NoAction.

(** The block under [if __name__ == "__main__"], up to its call. *)
Definition main (argv : list string) : result call :=
  match List.skipn (start argv) argv with
  | [] => Raise (Exn ValueError
                   "not enough values to unpack (expected at least 1, got 0)")
  | action :: args =>
      if String.eqb action "FileInfo" then Ok (FileInfo args)
      else if String.eqb action "GetResults" then
        match item args 0, item args 1, item args 2,
              item args 3, item args 4, item args 5 with
        | Ok a0, Ok a1, Ok a2, Ok a3, Ok a4, Ok a5 =>
            Ok (GetResults a0 a1 a2 a3 a4 a5)
        | Raise e, _, _, _, _, _
        | _, Raise e, _, _, _, _
        | _, _, Raise e, _, _, _
        | _, _, _, Raise e, _, _
        | _, _, _, _, Raise e, _
        | _, _, _, _, _, Raise e => Raise e
        end
      else Ok NoAction
  end.

End Results.

(* ===================================================================== *)
(** * The context manager DirectoryContext *)
(* ===================================================================== *)

Module Dir.
Import Py Path.

(** [os.getcwd()]: the path of the working directory from the root; it
    fails when that directory is not there any more. *)
Definition getcwd (fs : posix_fs) : result string :=
  if is_dir fs (cwd fs)
  then Ok ("/" +:+ join_char sep (List.rev (cwd fs)))
  else Raise enoent.

(** [posixpath.abspath] *)
Definition abspath (fs : posix_fs) (path : string) : result string :=
  if posix_isabs path then Ok (posix_normpath path)
  else
    match getcwd fs with
    | Ok c => Ok (posix_normpath (posix_join c path))
    | Raise e => Raise e
    end.

Definition set_cwd (fs : posix_fs) (n : node) : posix_fs :=
  {| dirs := dirs fs; files := files fs; cwd := n |}.

(** [os.chdir]: the path must resolve to a directory, which becomes the
    working directory. *)
Definition chdir (path : string) : Ctx.M posix_fs unit :=
  fun fs =>
    if String.eqb path "" then (Raise enoent, fs)
    else
      match walk fs (start fs path) (split_char path sep) with
      | Raise e => (Raise e, fs)
      | Ok n =>
          if is_dir fs n then (Ok tt, set_cwd fs n)
          else (Raise enotdir, fs)
      end.

(** [__enter__]: [self.curdir], returned here, is
    [os.path.abspath(os.curdir)]; then [os.chdir(self.path)]. *)
Definition enter (path : string) : Ctx.M posix_fs string :=
  fun fs =>
    match abspath fs "." with
    | Raise e => (Raise e, fs)
    | Ok curdir =>
        match chdir path fs with
        | (Ok _, fs1) => (Ok curdir, fs1)
        | (Raise e, fs1) => (Raise e, fs1)
        end
    end.

(** [with DirectoryContext(path): body]; [__exit__] is
    [os.chdir(self.curdir)]. *)
Definition DirectoryContext {A} (path : string) (body : Ctx.M posix_fs A)
    : Ctx.M posix_fs A :=
  fun fs =>
    match enter path fs with
    | (Raise e, fs1) => (Raise e, fs1)
    | (Ok curdir, fs1) =>
        Ctx.with_ (fun s => (Ok tt, s)) (chdir curdir) body fs1
    end.

(** A name of an entry: not empty, not [.] or [..], without a slash. *)
Definition is_name (s : string) : bool :=
  negb (String.eqb s "") && negb (String.eqb s ".")
  && negb (String.eqb s "..")
  && forall_chars (fun c => negb (Ascii.eqb c sep)) s.

(** A node and the directories above it, up to the root. *)
Fixpoint lineage (n : node) : list node :=
  match n with
  | [] => [[]]
  | _ :: parent => n :: lineage parent
  end.

(** The node is a directory under directories, all of them with names
    that path resolution can follow. *)
Definition reachable_dir (fs : posix_fs) (n : node) : bool :=
  List.forallb (is_dir fs) (lineage n) && List.forallb is_name n.

(** [os.rmdir] of the node [n]. *)
Definition without_dir (fs : posix_fs) (n : node) : posix_fs :=
  {| dirs := dirs fs ∖ {[ n ]}; files := files fs; cwd := cwd fs |}.

(** A host with [/tmp/job] and [/home], the working directory being
    [/home]. *)
Definition home_fs : posix_fs :=
  fs_of [["tmp"]; ["tmp"; "job"]; ["home"]] [] ["home"].

(** A body: [os.mkdir("proj")]. *)
Definition make_proj : Ctx.M posix_fs unit :=
  fun fs =>
    match posix_mkdir fs "proj" with
    | Ok fs' => (Ok tt, fs')
    | Raise e => (Raise e, fs)
    end.

(** A body: [os.rmdir("/home")], then an exception. *)
Definition remove_home : Ctx.M posix_fs unit :=
  fun fs => (Raise (Exn ValueError "body"), without_dir fs ["home"]).

End Dir.

(* ===================================================================== *)
(** * Properties of BreakableIncrementedSleep *)
(* ===================================================================== *)

Section BackoffFacts.
Import Backoff.

Context {W : Type}.
Implicit Types (self : BreakableIncrementedSleep W) (cs : list call).

Lemma do_call_default self c : default (do_call self c) = default self.
Proof. by destruct c. Qed.

Lemma do_call_increment self c : increment (do_call self c) = increment self.
Proof. by destruct c. Qed.

Lemma do_call_max self c : max (do_call self c) = max self.
Proof. by destruct c. Qed.

(** One call keeps [default <= current <= max] when the increment is not
    negative. *)
Lemma do_call_invariant self c :
  0 <= increment self -> invariant self -> invariant (do_call self c).
Proof.
  unfold invariant. destruct c; simpl; lia.
Qed.

Lemma run_invariant self cs :
  0 <= increment self -> invariant self -> Forall invariant (run self cs).
Proof.
  revert self. induction cs as [|c cs IH]; intros self Hinc Hinv; simpl.
  - constructor.
  - constructor.
    + by apply do_call_invariant.
    + apply IH.
      * by rewrite do_call_increment.
      * by apply do_call_invariant.
Qed.

Lemma after_default self cs : default (after self cs) = default self.
Proof.
  unfold after. revert self.
  induction cs as [|c cs IH]; intros self; simpl; [done|].
  by rewrite IH, do_call_default.
Qed.

(** After [increase()], [current] is at most [max], whatever it was. *)
Lemma run_increase_le_max self n :
  Forall (fun s => current s <= max self) (run self (List.repeat CallIncrease n)).
Proof.
  revert self. induction n as [|n IH]; intros self; simpl; [constructor|].
  constructor.
  - simpl. lia.
  - apply (IH (increase self)).
Qed.

(** C3, as amended. For every instance made with an increment that is not
    negative and with [default_timeout <= max_timeout], and every finite
    sequence of [reset()] and [increase()] calls,
    [default <= current <= max] holds after each call of the sequence. *)
Theorem backoff_invariant (increment default_timeout max_timeout : Z)
    (break_fct : W -> bool * W) cs :
  0 <= increment ->
  default_timeout <= max_timeout ->
  Forall invariant (run (init increment default_timeout max_timeout break_fct) cs).
Proof.
  intros Hinc Hle. apply run_invariant; [done|].
  unfold invariant; simpl. lia.
Qed.

(** C7. [increase()] sets [current] to [min(current + increment, max)]
    and [reset()] sets it to [default], both leaving the other attributes;
    so from [default=5, increment=5, max=20] the values of [current] are
    5, then 10, 15, 20, 20 after successive [increase()] calls, and a
    [reset()] after any sequence of calls gives 5 again. *)
Theorem backoff_arithmetic :
  (forall self,
     current (increase self) = Z.min (current self + increment self) (max self)
     /\ current (reset self) = default self
     /\ forall c, default (do_call self c) = default self
               /\ increment (do_call self c) = increment self
               /\ max (do_call self c) = max self)
  /\ (forall brk : W -> bool * W,
        let self := init 5 5 20 brk in
        current self = 5
        /\ List.map current
             (run self [CallIncrease; CallIncrease; CallIncrease; CallIncrease])
           = [10; 15; 20; 20]
        /\ (forall n,
              Forall (fun s => current s <= 20)
                (run self (List.repeat CallIncrease n)))
        /\ forall cs, current (reset (after self cs)) = 5).
Proof.
  split.
  - intros self. repeat split; by destruct c.
  - intros brk self. split; [done|]. split; [done|]. split.
    + intros n. apply (run_increase_le_max self n).
    + intros cs. simpl. by rewrite after_default.
Qed.

(** The loop of [sleep]: its events are a sleep and a check per answer of
    [break_fct], the answers are those of successive calls from [w], all
    but the last are false, and fewer than [n] units are slept only when
    the last answer is true. *)
Lemma sleep_loop_rounds (brk : W -> bool * W) n w :
  exists bs w',
    sleep_loop brk n w = (w', rounds bs)
    /\ answers brk (List.length bs) w = (bs, w')
    /\ (List.length bs <= n)%nat
    /\ Forall (fun b => b = false) (List.removelast bs)
    /\ (List.length bs = n \/ List.last bs false = true).
Proof.
  revert w. induction n as [|n IH]; intros w.
  - exists [], w. simpl. repeat split; auto.
  - simpl. destruct (brk w) as [b w1] eqn:Eb. destruct b.
    + exists [true], w1. simpl. rewrite Eb. repeat split; auto; lia.
    + destruct (IH w1) as (bs & w' & Hl & Ha & Hn & Hf & Hlast).
      rewrite Hl. exists (false :: bs), w'. simpl. rewrite Eb, Ha.
      repeat split; [lia| |].
      * destruct bs; [constructor|]. constructor; [done|]. exact Hf.
      * destruct Hlast as [->|Hlast]; [by left|right].
        destruct bs; [done|]. exact Hlast.
Qed.

Lemma count_increased_rounds bs : count_increased (rounds bs) = O.
Proof. induction bs as [|b bs IH]; [done|]. exact IH. Qed.

Lemma count_slept_rounds bs : count_slept (rounds bs) = List.length bs.
Proof.
  induction bs as [|b bs IH]; [done|].
  unfold count_slept in *. simpl. by rewrite IH.
Qed.

Lemma count_increased_app tr1 tr2 :
  count_increased (tr1 ++ tr2) = (count_increased tr1 + count_increased tr2)%nat.
Proof. unfold count_increased. by rewrite List.filter_app, List.length_app. Qed.

Lemma count_slept_app tr1 tr2 :
  count_slept (tr1 ++ tr2) = (count_slept tr1 + count_slept tr2)%nat.
Proof. unfold count_slept. by rewrite List.filter_app, List.length_app. Qed.

(** C8. [sleep()] sleeps one unit at a time, at most [current] times, and
    calls [break_fct] after each unit; it stops at the first true answer,
    and stops before [current] units only on a true answer; on both ways
    out it calls [increase()] once, as its last step. *)
Theorem sleep_units self (w : W) :
  exists (bs : list bool) (w' : W) (tr : list event),
    sleep self w = (increase self, w', tr)
    /\ tr = rounds bs ++ [Increased]
    /\ answers (break_fct self) (List.length bs) w = (bs, w')
    /\ count_slept tr = List.length bs
    /\ Z.of_nat (count_slept tr) <= Z.max 0 (current self)
    /\ Forall (fun b => b = false) (List.removelast bs)
    /\ (Z.of_nat (List.length bs) = Z.max 0 (current self)
        \/ List.last bs false = true)
    /\ count_increased tr = 1%nat.
Proof.
  destruct (sleep_loop_rounds (break_fct self) (Z.to_nat (current self)) w)
    as (bs & w' & Hl & Ha & Hn & Hf & Hlast).
  exists bs, w', (rounds bs ++ [Increased]).
  assert (Hs : count_slept (rounds bs ++ [Increased]) = List.length bs).
  { rewrite count_slept_app, count_slept_rounds. unfold count_slept; simpl. lia. }
  split; [unfold sleep; by rewrite Hl|].
  split; [done|]. split; [done|]. split; [done|].
  split; [rewrite Hs; lia|]. split; [done|]. split.
  - destruct Hlast as [Hlen|Ht]; [left; lia|by right].
  - rewrite count_increased_app, count_increased_rounds. done.
Qed.

End BackoffFacts.

(** An instance on which C3, as amended, applies: increment 5, default 5,
    max 20. *)
Lemma backoff_invariant_witness :
  0 <= 5 /\ 5 <= 20
  /\ Forall Backoff.invariant
       (Backoff.run (Backoff.init 5 5 20 (fun w : unit => (false, w)))
          [Backoff.CallIncrease; Backoff.CallReset; Backoff.CallIncrease]).
Proof.
  split; [lia|]. split; [lia|].
  apply (backoff_invariant 5 5 20); lia.
Defined.

(** C3 as stated fails: with increment 1, default 10 and max 5, one
    [increase()] leaves [current = 5], below [default = 10]. *)
Lemma backoff_invariant_counterexample :
  ~ Forall Backoff.invariant
      (Backoff.run (Backoff.init 1 10 5 (fun w : unit => (false, w)))
         [Backoff.CallIncrease]).
Proof.
  intros H. apply Forall_cons_1 in H as [H _].
  unfold Backoff.invariant in H. simpl in H. lia.
Qed.

(* ===================================================================== *)
(** * Properties of the URL templates *)
(* ===================================================================== *)

Section UrlFacts.
Import Py Url.

Lemma forall_chars_app f s1 s2 :
  forall_chars f (s1 +:+ s2) = forall_chars f s1 && forall_chars f s2.
Proof.
  induction s1 as [|c s1 IH]; simpl; [done|].
  by rewrite IH, andb_assoc.
Qed.

Lemma pretty_N_go_chars x s :
  forall_chars is_digit_or_minus s = true ->
  forall_chars is_digit_or_minus (pretty_N_go x s) = true.
Proof.
  revert s. induction (N.lt_wf_0 x) as [x _ IH]; intros s Hs.
  assert (x = 0 \/ 0 < x)%N as [->|Hx] by lia.
  - by rewrite pretty_N_go_0.
  - rewrite pretty_N_go_step by done. apply IH.
    + by apply N.div_lt.
    + simpl. rewrite Hs, andb_true_r.
      unfold pretty_N_char. by repeat case_match.
Qed.

(** [%i] writes digits and at most a minus sign. *)
Lemma fmt_i_chars n : forall_chars is_digit_or_minus (fmt_i n) = true.
Proof.
  assert (HN : forall x : N, forall_chars is_digit_or_minus (pretty x) = true).
  { intros x. unfold pretty, pretty_N. case_decide; [done|].
    by apply pretty_N_go_chars. }
  unfold fmt_i, pretty, pretty_Z. destruct n as [|p|p]; [done|apply HN|].
  simpl. apply HN.
Qed.

Lemma fmt_i_inj n m : fmt_i n = fmt_i m -> n = m.
Proof. unfold fmt_i. apply (inj pretty). Qed.

Lemma forall_chars_impl (f g : ascii -> bool) s :
  (forall c, f c = true -> g c = true) ->
  forall_chars f s = true -> forall_chars g s = true.
Proof.
  intros Hfg. induction s as [|c s IH]; simpl; [done|].
  rewrite !andb_true_iff. intros [? ?]. auto.
Qed.

Lemma fmt_i_no_underscore n : forall_chars not_underscore (fmt_i n) = true.
Proof.
  apply (forall_chars_impl is_digit_or_minus); [|apply fmt_i_chars].
  intros c. unfold is_digit_or_minus, not_underscore.
  destruct (Ascii.eqb_spec c "_") as [->|]; [by compute|done].
Qed.

(** Splitting at the last underscore: when what follows the underscore
    has none, both sides of it are determined by the whole. *)
Lemma app_underscore_inj j j' d d' :
  forall_chars not_underscore d = true ->
  forall_chars not_underscore d' = true ->
  j +:+ String "_" d = j' +:+ String "_" d' ->
  j = j' /\ d = d'.
Proof.
  assert (Hno : forall a b d0,
            forall_chars not_underscore d0 = true ->
            d0 <> a +:+ String "_" b).
  { intros a b d0 Hd ->. rewrite forall_chars_app in Hd. simpl in Hd.
    rewrite andb_false_r in Hd. discriminate. }
  revert j'. induction j as [|c j IH]; intros [|c' j'] Hd Hd' H; simpl in H.
  - by inversion H.
  - inversion H; subst. by destruct (Hno j' d' _ Hd).
  - inversion H; subst. by destruct (Hno j d _ Hd').
  - inversion H; subst. destruct (IH j' Hd Hd' H2) as [-> ->]. done.
Qed.

Lemma length_app s1 s2 :
  String.length (s1 +:+ s2) = (String.length s1 + String.length s2)%nat.
Proof. induction s1 as [|c s1 IH]; simpl; [done|]. by rewrite IH. Qed.

(** An equal ending can be dropped from both sides. *)
Lemma app_inj_r s1 s2 t : s1 +:+ t = s2 +:+ t -> s1 = s2.
Proof.
  revert s2. induction s1 as [|c s1 IH]; intros [|c' s2] H; simpl in H.
  - done.
  - apply (f_equal String.length) in H.
    rewrite !length_app in H. simpl in H. rewrite ?length_app in H. lia.
  - apply (f_equal String.length) in H.
    rewrite !length_app in H. simpl in H. rewrite ?length_app in H. lia.
  - inversion H; subst. f_equal. by apply IH.
Qed.

(** A template [pre ++ job_id ++ "_" ++ number ++ ext], with no underscore
    in [ext], determines its job id and its number. *)
Lemma numbered_inj (pre ext : string) j n j' n' :
  forall_chars not_underscore ext = true ->
  pre +:+ j +:+ "_" +:+ fmt_i n +:+ ext = pre +:+ j' +:+ "_" +:+ fmt_i n' +:+ ext ->
  j = j' /\ n = n'.
Proof.
  intros Hext H. apply (inj (String.app pre)) in H.
  apply app_underscore_inj in H as [-> H].
  - apply app_inj_r, fmt_i_inj in H as ->. done.
  - by rewrite forall_chars_app, fmt_i_no_underscore.
  - by rewrite forall_chars_app, fmt_i_no_underscore.
Qed.

Lemma fileURL_inj j i j' i' : fileURL j i = fileURL j' i' -> j = j' /\ i = i'.
Proof.
  unfold fileURL. intros H. apply (inj (String.app "/file_")) in H.
  apply app_underscore_inj in H as [-> H]; auto using fmt_i_no_underscore.
  by apply fmt_i_inj in H as ->.
Qed.

Lemma logURL_inj j n j' n' : logURL j n = logURL j' n' -> j = j' /\ n = n'.
Proof. unfold logURL. by apply numbered_inj. Qed.

Lemma renderURL_inj j n j' n' : renderURL j n = renderURL j' n' -> j = j' /\ n = n'.
Proof. unfold renderURL. by apply numbered_inj. Qed.

Lemma resultURL_inj j j' : resultURL j = resultURL j' -> j = j'.
Proof.
  unfold resultURL. intros H. apply (inj (String.app "/result_")) in H.
  by apply app_inj_r in H.
Qed.

Lemma cancelURL_inj j j' : cancelURL j = cancelURL j' -> j = j'.
Proof. unfold cancelURL. apply (inj (String.app "/cancel_")). Qed.

(** The URL of a key determines the key: its template, its job id and its
    number. *)
Lemma url_inj k1 k2 : url k1 = url k2 -> k1 = k2.
Proof.
  destruct k1 as [j i|j n|j|j n|j], k2 as [j' i'|j' n'|j'|j' n'|j'];
    simpl; intros H; try discriminate H.
  - by apply fileURL_inj in H as [-> ->].
  - by apply logURL_inj in H as [-> ->].
  - by apply resultURL_inj in H as ->.
  - by apply renderURL_inj in H as [-> ->].
  - by apply cancelURL_inj in H as ->.
Qed.

(** C4. Each of [fileURL], [logURL], [resultURL], [renderURL] and
    [cancelURL] is a function of its keys that returns the path of the
    interface table, with the number in decimal; and two distinct keys,
    of one template or of two, never give the same URL. *)
Theorem url_templates :
  (forall job_id n,
     fileURL job_id n = "/file_" +:+ job_id +:+ "_" +:+ fmt_i n
     /\ logURL job_id n = "/log_" +:+ job_id +:+ "_" +:+ fmt_i n +:+ ".log"
     /\ resultURL job_id = "/result_" +:+ job_id +:+ ".zip"
     /\ renderURL job_id n = "/render_" +:+ job_id +:+ "_" +:+ fmt_i n +:+ ".exr"
     /\ cancelURL job_id = "/cancel_" +:+ job_id)
  /\ (fileURL "12" 3 = "/file_12_3"
      /\ logURL "12" 40 = "/log_12_40.log"
      /\ resultURL "12" = "/result_12.zip"
      /\ renderURL "12" 105 = "/render_12_105.exr"
      /\ cancelURL "12" = "/cancel_12")
  /\ (forall k1 k2 : key, k1 <> k2 -> url k1 <> url k2).
Proof.
  split; [done|]. split; [by vm_compute|].
  intros k1 k2 Hne Heq. by apply Hne, url_inj.
Qed.

End UrlFacts.

(** Keys on which C4 applies: a job id that itself ends in an underscore
    and digits, under one template and under two. *)
Lemma url_templates_witness :
  Url.url (Url.KFile "7_1" 2) <> Url.url (Url.KFile "7" 12)
  /\ Url.url (Url.KLog "7" 1) <> Url.url (Url.KRender "7" 1).
Proof.
  split.
  - apply (proj2 (proj2 url_templates)). discriminate.
  - apply (proj2 (proj2 url_templates)). discriminate.
Defined.

(* ===================================================================== *)
(** * Properties of prefixPath *)
(* ===================================================================== *)

Section PosixFacts.
Import Py Path.

Implicit Types (fs : posix_fs) (cur n : node) (comps : list string).






Lemma walk_app fs cur comps1 comps2 :
  walk fs cur (comps1 ++ comps2)
  = match walk fs cur comps1 with
    | Ok n => walk fs n comps2
    | Raise e => Raise e
    end.
Proof.
  revert cur. induction comps1 as [|c rest IH]; intros cur; simpl; [done|].
  destruct (node_exists fs cur); simpl; [|done].
  destruct (is_dir fs cur); simpl; [|done].
  destruct (String.eqb c "" || String.eqb c "."); [apply IH|].
  destruct (String.eqb c ".."); [apply IH|].
  destruct (node_exists fs (c :: cur)); [apply IH|done].
Qed.

(** Empty components at the end of a path lead nowhere else, from a
    directory. *)
Lemma walk_empty_tail fs cur k :
  is_dir fs cur = true -> walk fs cur (List.repeat "" k) = Ok cur.
Proof.
  intros Hd. induction k as [|k IH]; simpl; [done|].
  unfold node_exists. rewrite Hd. simpl. exact IH.
Qed.



End PosixFacts.

Section PrefixPathFacts.
Import Py Path.

Context {host : Host}.

Lemma is_absolute_isabs file_path :
  isabs file_path = true -> is_absolute file_path = Ok true.
Proof. intros H. unfold is_absolute. by rewrite H. Qed.



(** The classification returns for every path that is not empty. *)
Lemma is_absolute_total file_path :
  file_path <> "" -> exists b, is_absolute file_path = Ok b.
Proof.
  intros Hne. unfold is_absolute.
  destruct (isabs file_path); [by eexists|].
  match goal with |- context [if ?b then _ else _] => destruct b end;
    [by eexists|].
  destruct file_path as [|c r]; [done|]. simpl.
  destruct (Ascii.eqb c sep); by eexists.
Qed.


(** C10. [prefixPath] is defined for a path that is not empty only: on
    the empty string, which [os.path.isabs] does not take for absolute,
    the classification reaches [file_path[0]] and [IndexError] is raised
    in place of a path; for every other path the classification returns
    true or false. *)
Theorem prefixPath_empty_path prefix_directory prefix_path force (fs : FS) :
  isabs "" = false ->
  is_absolute "" = Raise (Exn IndexError "string index out of range")
  /\ prefixPath prefix_directory "" prefix_path force fs
     = Raise (Exn IndexError "string index out of range")
  /\ forall file_path, file_path <> "" -> exists b, is_absolute file_path = Ok b.
Proof.
  intros H.
  assert (Hc : is_absolute "" = Raise (Exn IndexError "string index out of range")).
  { unfold is_absolute. by rewrite H. }
  split; [done|]. split.
  - unfold prefixPath. by rewrite Hc.
  - apply is_absolute_total.
Qed.


End PrefixPathFacts.


(** A host and arguments on which C10 applies. *)
Lemma prefixPath_empty_path_witness :
  Path.isabs (Host := Path.posix) "" = false
  /\ Path.prefixPath (host := Path.posix) "/tmp/job" "" "/home/user" false
       Path.job_fs
     = Py.Raise (Py.Exn Py.IndexError "string index out of range").
Proof.
  split; [reflexivity|].
  apply (prefixPath_empty_path (host := Path.posix) "/tmp/job" "/home/user"
           false Path.job_fs).
  reflexivity.
Defined.



(** C2 fails on the code: with [/tmp/job] made and nothing under it, the
    file [/home/user/proj/tex/wood.png] under the prefix [/home/user] is
    to go to [/tmp/job/proj/tex/wood.png]; [os.mkdir] makes one directory
    and raises [FileNotFoundError] since [/tmp/job/proj] is not there. A
    remainder of one name is made and the path returned. *)
Theorem prefixPath_nested_remainder_raises :
  Path.exists_ (Host := Path.posix) Path.job_fs "/tmp/job" = true
  /\ Path.split (Host := Path.posix)
       (Path.normpath (Host := Path.posix) "/home/user/proj/tex/wood.png")
     = ("/home/user/proj/tex", "wood.png")
  /\ Path.prefixPath (host := Path.posix) "/tmp/job"
       "/home/user/proj/tex/wood.png" "/home/user" true Path.job_fs
     = Py.Raise Path.enoent
  /\ Path.prefixPath (host := Path.posix) "/tmp/job"
       "/home/user/proj/wood.png" "/home/user" true Path.job_fs
     = Py.Ok ("/tmp/job/proj/wood.png", Path.job_proj_fs).
Proof.
  repeat split; vm_compute; reflexivity.
Qed.

(* ===================================================================== *)
(** * Properties of the network calls *)
(* ===================================================================== *)

Section TextFacts.
Import Py Net.

Lemma to_N_byte_of_ascii c : Byte.to_N (byte_of_ascii c) = N_of_ascii c.
Proof. destruct c as [[] [] [] [] [] [] [] []]; reflexivity. Qed.

(** ASCII bytes are well-formed UTF-8. *)
Lemma utf8_valid_ascii (bs : list byte) :
  List.forallb (byte_in 0x00 0x7F) bs = true -> utf8_valid bs = true.
Proof.
  induction bs as [|b bs IH]; simpl; [done|].
  rewrite andb_true_iff. intros [-> H]. by apply IH.
Qed.

Lemma bytes_of_ascii_text s :
  forall_chars is_ascii s = true ->
  List.forallb (byte_in 0x00 0x7F) (bytes_of s) = true.
Proof.
  unfold bytes_of, list_byte_of_string.
  induction s as [|c s IH]; simpl; [done|].
  rewrite !andb_true_iff. intros [Hc Hs]. split; [|by apply IH].
  unfold byte_in. rewrite to_N_byte_of_ascii. unfold is_ascii in Hc.
  apply andb_true_iff. split; [apply N.leb_le|apply N.leb_le]; 
    apply N.ltb_lt in Hc; lia.
Qed.

Lemma forall_chars_join f c (l : list string) :
  f c = true ->
  Forall (fun s => forall_chars f s = true) l ->
  forall_chars f (join_char c l) = true.
Proof.
  intros Hc. induction 1 as [|s l Hs Hl IH]; simpl; [done|].
  destruct l as [|s' l']; [done|].
  rewrite forall_chars_app. simpl. rewrite Hs, Hc. exact IH.
Qed.

(** [VERSION] is ASCII, so [str(VERSION, encoding='utf8')] returns. *)
Lemma VERSION_valid (version : list Z) : utf8_valid (VERSION version) = true.
Proof.
  apply utf8_valid_ascii, bytes_of_ascii_text, forall_chars_join; [done|].
  induction version as [|n version IH]; simpl; constructor; [|exact IH].
  apply (forall_chars_impl Url.is_digit_or_minus); [|apply fmt_i_chars].
  intros c. unfold Url.is_digit_or_minus, is_ascii.
  rewrite orb_true_iff, andb_true_iff, !N.leb_le, N.eqb_eq, N.ltb_lt. lia.
Qed.

Lemma str_utf8_VERSION (version : list Z) :
  str_utf8 (VERSION version) = Ok (string_of_list_byte (VERSION version)).
Proof. unfold str_utf8. by rewrite VERSION_valid. Qed.

Lemma digit_of_digit_char d : is_digit d -> digit_of (digit_char d) = Some d.
Proof.
  unfold is_digit. intros H.
  assert (d = 0 \/ d = 1 \/ d = 2 \/ d = 3 \/ d = 4 \/ d = 5 \/ d = 6
          \/ d = 7 \/ d = 8 \/ d = 9) as Hd by lia.
  repeat (destruct Hd as [->|Hd]; [reflexivity|]). by subst.
Qed.

Lemma digit_char_props d :
  is_digit d ->
  is_space (digit_char d) = false
  /\ digit_char d <> "+"%char /\ digit_char d <> "-"%char
  /\ byte_in 0x00 0x7F (byte_of_ascii (digit_char d)) = true.
Proof.
  unfold is_digit. intros H.
  assert (d = 0 \/ d = 1 \/ d = 2 \/ d = 3 \/ d = 4 \/ d = 5 \/ d = 6
          \/ d = 7 \/ d = 8 \/ d = 9) as Hd by lia.
  repeat (destruct Hd as [->|Hd]; [by repeat split|]). subst. by repeat split.
Qed.

(** Reading on from a digit, a run of digits gives its decimal value and
    leaves nothing. *)
Lemma int_digits_run acc ds :
  Forall is_digit ds ->
  int_digits acc (digits_text ds)
  = Some (List.fold_left (fun a d => 10 * a + d) ds acc, "").
Proof.
  intros H. revert acc. induction H as [|d ds Hd _ IH]; intros acc; simpl; [done|].
  rewrite (digit_of_digit_char d Hd). apply IH.
Qed.

(** [int] of a run of decimal digits is its decimal value. *)
Lemma int_ascii_digits ds :
  ds <> [] -> Forall is_digit ds -> int_ascii (digits_text ds) = Ok (decimal_value ds).
Proof.
  intros Hne H. destruct H as [|d ds Hd Hds]; [done|].
  destruct (digit_char_props d Hd) as (Hsp & Hplus & Hminus & _).
  unfold int_ascii. simpl. rewrite Hsp.
  assert (Hsign :
    match String (digit_char d) (digits_text ds) with
    | String "+" r => (1, r)
    | String "-" r => (-1, r)
    | _ => (1, String (digit_char d) (digits_text ds))
    end = (1, String (digit_char d) (digits_text ds))).
  { destruct (digit_char d) as [[] [] [] [] [] [] [] []]; congruence. }
  unfold digits_text in Hsign. rewrite Hsign. simpl.
  rewrite (digit_of_digit_char d Hd).
  fold (digits_text ds). rewrite (int_digits_run d ds Hds). simpl.
  unfold decimal_value. cbn [List.fold_left].
  replace (10 * 0 + d) with d by lia. f_equal. lia.
Qed.

Lemma string_of_digits_bytes ds : string_of_list_byte (digits_bytes ds) = digits_text ds.
Proof.
  unfold string_of_list_byte, digits_bytes, digits_text. f_equal.
  rewrite List.map_map. apply List.map_ext. intros d.
  apply ascii_of_byte_of_ascii.
Qed.

Lemma digits_bytes_ascii ds :
  Forall is_digit ds -> List.forallb (byte_in 0x00 0x7F) (digits_bytes ds) = true.
Proof.
  induction 1 as [|d ds Hd _ IH]; simpl; [done|].
  destruct (digit_char_props d Hd) as (_ & _ & _ & ->). exact IH.
Qed.

Lemma firstn_digits_bytes k ds :
  List.firstn k (digits_bytes ds) = digits_bytes (List.firstn k ds).
Proof. unfold digits_bytes. by rewrite List.firstn_map. Qed.

End TextFacts.

Section ScanFacts.
Import Py Net.

Variable int_unicode : string -> result Z.
Variable net : network.

Lemma clientScan_timeout_no_report e w :
  recv net = RecvRaises e -> is_socket_timeout e = true ->
  clientScan int_unicode net NoReport w
  = (Raise (Exn IOError "No master server on network"), w).
Proof.
  intros Hr He. unfold clientScan, try_except, bind, recvfrom64.
  rewrite Hr. simpl. by rewrite He.
Qed.

Lemma clientScan_timeout_report e w :
  recv net = RecvRaises e -> is_socket_timeout e = true ->
  clientScan int_unicode net Report w
  = (Ok ("", 8000),
     set_reported w (reported w ++ [(ERROR, "No master server on network")])).
Proof.
  intros Hr He. unfold clientScan, try_except, bind, recvfrom64.
  rewrite Hr. simpl. by rewrite He.
Qed.

Lemma clientScan_packet payload sender text port report w :
  recv net = RecvPacket payload sender ->
  str_utf8 (List.firstn 64 payload) = Ok text ->
  py_int int_unicode text = Ok port ->
  clientScan int_unicode net report w
  = (Ok (fst sender, port), told report INFO "Master server found" w).
Proof.
  intros Hr Hs Hi. unfold clientScan, try_except, bind, recvfrom64, lift.
  rewrite Hr. simpl. destruct sender as [address sport]. simpl.
  rewrite Hs, Hi. by destruct report.
Qed.

Lemma py_int_digits ds :
  ds <> [] -> Forall is_digit ds ->
  str_utf8 (digits_bytes ds) = Ok (digits_text ds)
  /\ py_int int_unicode (digits_text ds) = Ok (decimal_value ds).
Proof.
  intros Hne Hds. split.
  - unfold str_utf8.
    rewrite (utf8_valid_ascii _ (digits_bytes_ascii ds Hds)).
    by rewrite string_of_digits_bytes.
  - unfold py_int, is_ascii_text.
    rewrite <- string_of_digits_bytes, list_byte_of_string_of_list_byte.
    rewrite (digits_bytes_ascii ds Hds), string_of_digits_bytes.
    by apply int_ascii_digits.
Qed.

(** C5. When nothing arrives on the port within the thirty seconds,
    [clientScan] raises [IOError] ("No master server on network") to its
    caller if no [report] is given, and with a [report] it passes the
    message to it as an error and returns [("", 8000)]; when a datagram
    arrives whose payload is a run of decimal digits in ASCII, it returns
    the sender's address and the decimal value of the (at most 64) digits
    received. *)
Theorem clientScan_contract (w : world) :
  (forall e,
     recv net = RecvRaises e -> is_socket_timeout e = true ->
     clientScan int_unicode net NoReport w
     = (Raise (Exn IOError "No master server on network"), w)
     /\ clientScan int_unicode net Report w
        = (Ok ("", 8000),
           set_reported w
             (reported w ++ [(ERROR, "No master server on network")])))
  /\ (forall ds address sender_port report,
        ds <> [] -> Forall is_digit ds ->
        recv net = RecvPacket (digits_bytes ds) (address, sender_port) ->
        clientScan int_unicode net report w
        = (Ok (address, decimal_value (List.firstn 64 ds)),
           told report INFO "Master server found" w)).
Proof.
  split.
  - intros e Hr He. split.
    + by apply clientScan_timeout_no_report with e.
    + by apply clientScan_timeout_report with e.
  - intros ds address sender_port report Hne Hds Hr.
    assert (Hne' : List.firstn 64 ds <> []) by (by destruct ds).
    assert (Hds' : Forall is_digit (List.firstn 64 ds)).
    { by apply Forall_take. }
    destruct (py_int_digits _ Hne' Hds') as [Hs Hi].
    apply (clientScan_packet (digits_bytes ds) (address, sender_port)
             (digits_text (List.firstn 64 ds))).
    + done.
    + by rewrite firstn_digits_bytes.
    + done.
Qed.

End ScanFacts.

(** Networks on which C5 applies: one on which nothing is broadcast, and
    one on which the master at 192.168.0.2 broadcasts the port 8080. *)
Lemma clientScan_contract_witness :
  Net.clientScan Net.int_ascii_only (Net.mock_master 200 []) Net.NoReport
    Net.initial_world
  = (Py.Raise (Py.Exn Py.IOError "No master server on network"),
     Net.initial_world)
  /\ fst (Net.clientScan Net.int_ascii_only (Net.mock_master 200 []) Net.Report
            Net.initial_world)
     = Py.Ok ("", 8000)
  /\ fst (Net.clientScan Net.int_ascii_only
            (Net.broadcasting (Net.digits_bytes [8; 0; 8; 0]) ("192.168.0.2", 40000))
            Net.NoReport Net.initial_world)
     = Py.Ok ("192.168.0.2", 8080).
Proof.
  pose proof (clientScan_contract Net.int_ascii_only (Net.mock_master 200 [])
                Net.initial_world) as [Ht _].
  pose proof (clientScan_contract Net.int_ascii_only
                (Net.broadcasting (Net.digits_bytes [8; 0; 8; 0])
                   ("192.168.0.2", 40000))
                Net.initial_world) as [_ Hp].
  destruct (Ht Net.timed_out eq_refl eq_refl) as [H1 H2].
  split; [exact H1|]. split; [by rewrite H2|].
  rewrite (Hp [8; 0; 8; 0] "192.168.0.2" 40000 Net.NoReport).
  - reflexivity.
  - discriminate.
  - repeat constructor; unfold Net.is_digit; lia.
  - reflexivity.
Defined.

Section ConnectionFacts.
Import Py Net.

Variable version : list Z.
Variable darwin : bool.
Variable int_unicode : string -> result Z.
Variable net : network.

Local Abbreviation clientScan := (Net.clientScan int_unicode net).
Local Abbreviation clientVerifyVersion := (Net.clientVerifyVersion version darwin net).
Local Abbreviation try_connection := (Net.try_connection version darwin net).
Local Abbreviation clientConnection := (Net.clientConnection version darwin int_unicode net).
Local Abbreviation ConnectionContext := (Net.ConnectionContext darwin).
Local Abbreviation refusal_observed := (Net.refusal_observed version).

(** Without a [report], [clientScan] leaves the state as it was. *)
Lemma clientScan_no_report_state w : snd (clientScan NoReport w) = w.
Proof.
  unfold Net.clientScan, try_except, bind, recvfrom64, lift.
  destruct (recv net) as [e|payload [address sport]]; simpl.
  - by destruct e as [[] ?].
  - destruct (str_utf8 _) as [text|[[] ?]]; simpl; try done.
    by destruct (py_int _ _) as [port|[[] ?]].
Qed.

Lemma clientConnection_target settings report scan timeout w address port :
  target int_unicode net settings scan w address port ->
  clientConnection settings report scan timeout w
  = try_connection address port (use_ssl settings) report timeout w.
Proof.
  unfold target, Net.clientConnection.
  intros [(He & -> & ->)|(He & -> & Hs & Ha)]; rewrite He; [done|]. simpl.
  unfold bind at 1. pose proof (clientScan_no_report_state w) as Hw.
  destruct (clientScan NoReport w) as [r w']. simpl in *. subst.
  by rewrite Ha.
Qed.

(** The request under [ConnectionContext()] opens the socket and leaves
    the default timeout as it was. *)
Lemma request_version_opens conn st b w :
  serve net (conn_address conn) (conn_port conn) (conn_ssl conn) = Response st b ->
  ConnectionContext None (request_version net conn) w = (Ok tt, set_sock_open w true).
Proof.
  intros Hs. unfold Net.ConnectionContext, request_version. rewrite Hs.
  destruct darwin; [|done].
  unfold bind, get, with_context, modify, ret. simpl.
  destruct (bool_decide (defaulttimeout w = None)) eqn:E; simpl; [done|].
  by destruct w.
Qed.

(** [clientVerifyVersion] on a status other than [OK]: the connection is
    closed and the answer is false. *)
Lemma clientVerifyVersion_status conn st b w :
  serve net (conn_address conn) (conn_port conn) (conn_ssl conn) = Response st b ->
  st <> OK ->
  clientVerifyVersion conn w = (Ok false, set_sock_open w false).
Proof.
  intros Hs Hst. unfold Net.clientVerifyVersion.
  unfold bind at 1. rewrite (request_version_opens conn st b w Hs).
  unfold bind at 1. unfold getresponse. rewrite Hs. simpl.
  destruct (Z.eqb_spec st OK) as [|_]; [done|]. by destruct w.
Qed.

(** [clientVerifyVersion] on another body than [VERSION] that decodes:
    two lines are printed, the connection stays open, the answer is
    false. *)
Lemma clientVerifyVersion_body conn b w :
  serve net (conn_address conn) (conn_port conn) (conn_ssl conn)
    = Response OK (Ok b) ->
  b <> VERSION version -> utf8_valid b = true ->
  clientVerifyVersion conn w
  = (Ok false,
     set_stdout (set_sock_open w true)
       ((stdout w ++ ["Incorrect server version!"])
        ++ ["expected " +:+ string_of_list_byte (VERSION version)
            +:+ " received " +:+ string_of_list_byte b])).
Proof.
  intros Hs Hb Hv. unfold Net.clientVerifyVersion.
  unfold bind at 1. rewrite (request_version_opens conn OK (Ok b) w Hs).
  unfold bind at 1. unfold getresponse. rewrite Hs. simpl.
  unfold bind at 1. simpl.
  rewrite bool_decide_eq_false_2 by done. simpl.
  unfold bind, print, modify, lift, ret. simpl.
  rewrite str_utf8_VERSION. unfold str_utf8. rewrite Hv.
  by destruct w.
Qed.

(** [clientVerifyVersion] on another body than [VERSION] that does not
    decode: the second line cannot be made, [UnicodeDecodeError] is
    raised, and the connection stays open. *)
Lemma clientVerifyVersion_undecodable conn b w :
  serve net (conn_address conn) (conn_port conn) (conn_ssl conn)
    = Response OK (Ok b) ->
  b <> VERSION version -> utf8_valid b = false ->
  clientVerifyVersion conn w
  = (Raise (Exn UnicodeDecodeError "'utf-8' codec can't decode bytes"),
     set_stdout (set_sock_open w true)
       (stdout w ++ ["Incorrect server version!"])).
Proof.
  intros Hs Hb Hv. unfold Net.clientVerifyVersion.
  unfold bind at 1. rewrite (request_version_opens conn OK (Ok b) w Hs).
  unfold bind at 1. unfold getresponse. rewrite Hs. simpl.
  unfold bind at 1. simpl.
  rewrite bool_decide_eq_false_2 by done. simpl.
  unfold bind, print, modify, lift, ret. simpl.
  rewrite str_utf8_VERSION. unfold str_utf8. rewrite Hv.
  by destruct w.
Qed.

(** Making the connection object changes nothing. *)
Lemma make_connection (conn : connection) (timeout : Z) (w : world) :
  exists w', ConnectionContext (Some timeout) (ret conn) w = (Ok conn, w')
    /\ stdout w' = stdout w /\ reported w' = reported w
    /\ sock_open w' = sock_open w /\ defaulttimeout w' = defaulttimeout w.
Proof.
  unfold Net.ConnectionContext. destruct darwin; [|by exists w].
  unfold bind, get, with_context, modify, ret. simpl.
  destruct (bool_decide _); simpl; by eexists.
Qed.

(** Reads the attributes of a state written with the setters, leaving
    the texts as they are. *)
Ltac read_state :=
  cbn [fst snd stdout reported sock_open defaulttimeout set_stdout
       set_reported set_sock_open set_defaulttimeout exn_str].

Lemma try_connection_refused address port ssl report timeout w st body :
  serve net address port ssl = Response st body ->
  refused version st body ->
  refusal_observed report st body w
    (try_connection address port ssl report timeout w).
Proof.
  intros Hs Href. unfold Net.try_connection, try_except.
  set (c1 := {| conn_address := address; conn_port := port; conn_ssl := ssl;
                conn_timeout := None |}).
  set (c2 := {| conn_address := address; conn_port := port; conn_ssl := ssl;
                conn_timeout := Some timeout |}).
  destruct (make_connection c1 timeout w) as (w1 & Hm & Ho & Hr & Hso & Hdt).
  assert (Hmake : exists conn w1,
            (if darwin then ConnectionContext (Some timeout) (ret c1) else ret c2) w
            = (Ok conn, w1)
            /\ serve net (conn_address conn) (conn_port conn) (conn_ssl conn)
               = Response st body
            /\ stdout w1 = stdout w /\ reported w1 = reported w
            /\ defaulttimeout w1 = defaulttimeout w).
  { destruct darwin.
    - exists c1, w1. by rewrite Hm.
    - by exists c2, w. }
  clear w1 Hm Ho Hr Hso Hdt.
  destruct Hmake as (conn & w1 & Hmk & Hsv & Ho & Hr & Hdt).
  unfold bind at 1. rewrite Hmk. unfold bind at 1.
  destruct (Z.eq_dec st OK) as [->|Hst].
  - destruct Href as [?|(b & -> & Hne)]; [done|].
    destruct (utf8_valid b) eqn:Hv.
    + rewrite (clientVerifyVersion_body conn b w1 Hsv Hne Hv).
      unfold Net.refusal_observed.
      destruct report; unfold close, reporting, call_report, print, bind,
        modify, ret, raise; read_state; rewrite ?Ho, ?Hr, ?Hdt.
      * split; [done|]. split; [done|]. intros _. split; [done|]. split; [done|].
        exists ["Incorrect server version!";
                "expected " +:+ string_of_list_byte (VERSION version)
                +:+ " received " +:+ string_of_list_byte b].
        by rewrite <- !List.app_assoc.
      * by repeat split.
    + rewrite (clientVerifyVersion_undecodable conn b w1 Hsv Hne Hv).
      unfold Net.refusal_observed.
      destruct report; unfold call_report, print, bind, modify, ret;
        read_state; rewrite ?Hdt; (split; [done|]); (split; [done|]);
        intros [?|(b' & [= <-] & _ & Hv')]; congruence.
  - rewrite (clientVerifyVersion_status conn st body w1 Hsv Hst).
    unfold Net.refusal_observed.
    destruct report; unfold close, reporting, call_report, print, bind,
      modify, ret, raise; read_state; rewrite ?Ho, ?Hr, ?Hdt.
    + split; [done|]. split; [done|]. intros _. split; [done|]. split; [done|].
      by exists [].
    + by repeat split.
Qed.

(** C1, as amended. When the response to [GET /version] has a status
    other than [OK], or a body other than [VERSION], [clientConnection]
    returns [None] and raises nothing, with or without a [report]; when
    the status is not [OK] or the body can be decoded, the connection is
    closed before the return, and the failure is told: as an error to
    [report], or, with no [report], by the message of the [ValueError],
    caught inside the call, printed on the standard output. *)
Theorem clientConnection_handshake_failure settings report scan timeout w
    address port st body :
  target int_unicode net settings scan w address port ->
  serve net address port (use_ssl settings) = Response st body ->
  refused version st body ->
  refusal_observed report st body w
    (clientConnection settings report scan timeout w).
Proof.
  intros Ht Hs Href. rewrite (clientConnection_target _ _ _ _ _ _ _ Ht).
  by apply try_connection_refused.
Qed.

End ConnectionFacts.

(** A client of version 1.8.1 and a master that answers 1.8.2, on which
    C1, as amended, applies. *)
Lemma clientConnection_handshake_failure_witness :
  Net.refusal_observed [1; 8; 1] Net.NoReport 200
    (Py.Ok (Net.bytes_of "1.8.2")) Net.initial_world
    (Net.clientConnection [1; 8; 1] false Net.int_ascii_only
       (Net.mock_master 200 (Net.bytes_of "1.8.2")) Net.explicit_settings
       Net.NoReport true 5 Net.initial_world).
Proof.
  apply (clientConnection_handshake_failure [1; 8; 1] false Net.int_ascii_only
           (Net.mock_master 200 (Net.bytes_of "1.8.2")) Net.explicit_settings
           Net.NoReport true 5 Net.initial_world "192.168.0.2" 8000).
  - left. repeat split; reflexivity.
  - reflexivity.
  - right. exists (Net.bytes_of "1.8.2"). split; [reflexivity|].
    vm_compute. discriminate.
Defined.

(** C1 as stated fails: with no [report], a master that answers 1.8.2 to
    a client of version 1.8.1 makes [clientConnection] return [None]; the
    [ValueError] of [reporting] is caught by the [except] clause of the
    call itself and printed, and no exception reaches the caller. *)
Lemma clientConnection_handshake_failure_counterexample :
  Net.bytes_of "1.8.2" <> Net.VERSION [1; 8; 1]
  /\ Net.clientConnection [1; 8; 1] false Net.int_ascii_only
       (Net.mock_master 200 (Net.bytes_of "1.8.2")) Net.explicit_settings
       Net.NoReport true 5 Net.initial_world
     = (Py.Ok None,
        {| Net.stdout := ["Incorrect server version!";
                          "expected 1.8.1 received 1.8.2";
                          "Incorrect master version"];
           Net.reported := [];
           Net.sock_open := false;
           Net.defaulttimeout := None |})
  /\ ~ (exists e,
         fst (Net.clientConnection [1; 8; 1] false Net.int_ascii_only
                (Net.mock_master 200 (Net.bytes_of "1.8.2"))
                Net.explicit_settings Net.NoReport true 5 Net.initial_world)
         = Py.Raise e).
Proof.
  split; [vm_compute; discriminate|].
  split; [vm_compute; reflexivity|].
  intros [e He]. vm_compute in He. discriminate.
Qed.

(** Beside C1: a differing body that is not UTF-8 stops
    [clientVerifyVersion] in its second [print]; [clientConnection]
    returns [None] with the socket still open. *)
Example clientConnection_undecodable_body :
  Net.clientConnection [1; 8; 1] false Net.int_ascii_only
    (Net.mock_master 200 [xff]) Net.explicit_settings Net.NoReport true 5
    Net.initial_world
  = (Py.Ok None,
     {| Net.stdout := ["Incorrect server version!";
                       "'utf-8' codec can't decode bytes"];
        Net.reported := [];
        Net.sock_open := true;
        Net.defaulttimeout := None |}).
Proof. vm_compute. reflexivity. Qed.

(* ===================================================================== *)
(** * Further properties of BreakableIncrementedSleep *)
(* ===================================================================== *)

Section BackoffMore.
Import Backoff.

Context {W : Type}.
Implicit Types (self : BreakableIncrementedSleep W).

Lemma after_increases_current self n :
  0 <= increment self -> current self <= max self ->
  current (after self (List.repeat CallIncrease n))
  = Z.min (current self + Z.of_nat n * increment self) (max self).
Proof.
  unfold after. revert self. induction n as [|n IH]; intros self Hi Hc.
  - simpl. lia.
  - cbn [List.repeat List.fold_left do_call].
    rewrite IH; simpl; nia.
Qed.

(** X1. The closed form of the widening interval: for an instance made with
    an increment that is not negative and [default_timeout <=
    max_timeout], after [n] calls of [increase()] with no [reset()]
    between them [current] is [min(default + n * increment, max)]; so it
    never decreases from one call to the next. *)
Theorem backoff_closed_form (increment default_timeout max_timeout : Z)
    (break_fct : W -> bool * W) (n : nat) :
  0 <= increment ->
  default_timeout <= max_timeout ->
  let self := init increment default_timeout max_timeout break_fct in
  current (after self (List.repeat CallIncrease n))
  = Z.min (default_timeout + Z.of_nat n * increment) max_timeout
  /\ current (after self (List.repeat CallIncrease n))
     <= current (after self (List.repeat CallIncrease (S n))).
Proof.
  intros Hi Hd self.
  rewrite !(after_increases_current self) by (simpl; lia).
  simpl current. simpl max. simpl Backoff.increment. split; [done|]. nia.
Qed.

Lemma answers_S (brk : W -> bool * W) n w :
  answers brk (S n) w
  = let '(b, w1) := brk w in
    let '(bs, w2) := answers brk n w1 in (b :: bs, w2).
Proof. reflexivity. Qed.

Lemma sleep_loop_S (brk : W -> bool * W) n w :
  sleep_loop brk (S n) w
  = let '(b, w1) := brk w in
    if b then (w1, [Slept; Checked true])
    else let '(w2, tr) := sleep_loop brk n w1 in
         (w2, Slept :: Checked false :: tr).
Proof. reflexivity. Qed.

Lemma sleep_loop_first_true (brk : W -> bool * W) n k w w' :
  answers brk (S k) w = (List.repeat false k ++ [true], w') ->
  (S k <= n)%nat ->
  sleep_loop brk n w = (w', rounds (List.repeat false k ++ [true])).
Proof.
  revert n w. induction k as [|k IH]; intros n w Ha Hn;
    (destruct n as [|n]; [lia|]); rewrite answers_S in Ha;
    rewrite sleep_loop_S; destruct (brk w) as [b w1].
  - simpl in Ha. by injection Ha as -> ->.
  - destruct (answers brk (S k) w1) as [bs w2] eqn:E.
    simpl in Ha. injection Ha as -> Hbs ->.
    rewrite (IH n w1) by (rewrite ?E, ?Hbs; (done || lia)).
    done.
Qed.

Lemma sleep_loop_no_true (brk : W -> bool * W) n w w' :
  answers brk n w = (List.repeat false n, w') ->
  sleep_loop brk n w = (w', rounds (List.repeat false n)).
Proof.
  revert w. induction n as [|n IH]; intros w Ha.
  - simpl in *. by injection Ha as ->.
  - rewrite answers_S in Ha. rewrite sleep_loop_S.
    destruct (brk w) as [b w1].
    destruct (answers brk n w1) as [bs w2] eqn:E.
    simpl in Ha. injection Ha as -> Hbs ->.
    rewrite (IH w1) by (by rewrite E, Hbs). done.
Qed.

(** X2. The latency of a break: when [break_fct] first answers true at its
    call number [k + 1], and [current] is at least [k + 1], [sleep()]
    sleeps [k + 1] units and no more, whatever is left of [current], and
    then widens the interval. *)
Theorem sleep_break_latency self (w w' : W) (k : nat) :
  answers (break_fct self) (S k) w = (List.repeat false k ++ [true], w') ->
  Z.of_nat (S k) <= current self ->
  sleep self w
  = (increase self, w', rounds (List.repeat false k ++ [true]) ++ [Increased])
  /\ count_slept (rounds (List.repeat false k ++ [true]) ++ [Increased]) = S k.
Proof.
  intros Ha Hk. split.
  - unfold sleep.
    rewrite (sleep_loop_first_true _ _ k w w' Ha) by lia. done.
  - rewrite count_slept_app, count_slept_rounds, List.length_app, List.repeat_length.
    unfold count_slept. simpl. lia.
Qed.

(** X3. With no true answer, [sleep()] sleeps [current] units in full. *)
Theorem sleep_full_length self (w w' : W) :
  answers (break_fct self) (Z.to_nat (current self)) w
  = (List.repeat false (Z.to_nat (current self)), w') ->
  sleep self w
  = (increase self, w',
     rounds (List.repeat false (Z.to_nat (current self))) ++ [Increased])
  /\ Z.of_nat (count_slept
                 (rounds (List.repeat false (Z.to_nat (current self)))
                  ++ [Increased]))
     = Z.max 0 (current self).
Proof.
  intros Ha. split.
  - unfold sleep. by rewrite (sleep_loop_no_true _ _ w w' Ha).
  - rewrite count_slept_app, count_slept_rounds, List.repeat_length.
    unfold count_slept. simpl. lia.
Qed.

End BackoffMore.

Lemma backoff_closed_form_witness :
  0 <= 5 /\ 5 <= 20
  /\ Backoff.current
       (Backoff.after (Backoff.init 5 5 20 (fun w : unit => (false, w)))
          (List.repeat Backoff.CallIncrease 7))
     = 20.
Proof.
  split; [lia|]. split; [lia|].
  apply (proj1 (backoff_closed_form 5 5 20 (fun w : unit => (false, w)) 7
                  ltac:(lia) ltac:(lia))).
Defined.

(** A predicate that turns true at its third call. *)
Lemma sleep_break_latency_witness :
  Backoff.sleep
    (Backoff.init 5 10 20 (fun n : nat => ((2 <=? n)%nat, S n))) O
  = (Backoff.increase
       (Backoff.init 5 10 20 (fun n : nat => ((2 <=? n)%nat, S n))),
     3%nat,
     [Backoff.Slept; Backoff.Checked false; Backoff.Slept;
      Backoff.Checked false; Backoff.Slept; Backoff.Checked true;
      Backoff.Increased]).
Proof.
  apply (proj1 (sleep_break_latency
                  (Backoff.init 5 10 20 (fun n : nat => ((2 <=? n)%nat, S n)))
                  O 3%nat 2 eq_refl ltac:(simpl; lia))).
Defined.

Lemma sleep_full_length_witness :
  Backoff.count_slept
    (snd (Backoff.sleep (Backoff.init 5 3 20 (fun w : unit => (false, w))) tt))
  = 3%nat.
Proof.
  rewrite (proj1 (sleep_full_length
                    (Backoff.init 5 3 20 (fun w : unit => (false, w)))
                    tt tt eq_refl)).
  reflexivity.
Defined.

(* ===================================================================== *)
(** * Further properties of the network calls *)
(* ===================================================================== *)

Section TimeoutFacts.
Import Py Net.

Variable version : list Z.
Variable darwin : bool.
Variable int_unicode : string -> result Z.
Variable net : network.

Lemma keeps_ret {A} (a : A) : keeps_timeout (ret a).
Proof. by intros w. Qed.

Lemma keeps_raise {A} (e : exn) : keeps_timeout (@raise A e).
Proof. by intros w. Qed.

Lemma keeps_lift {A} (r : result A) : keeps_timeout (lift r).
Proof. by intros w. Qed.

Lemma keeps_bind {A B} (m : M A) (k : A -> M B) :
  keeps_timeout m -> (forall a, keeps_timeout (k a)) -> keeps_timeout (bind m k).
Proof.
  intros Hm Hk w. unfold bind. specialize (Hm w).
  destruct (m w) as [[a|e] w1]; simpl in *; [|done].
  by rewrite (Hk a w1).
Qed.

Lemma keeps_try_except {A} (m : M A) catches handler :
  keeps_timeout m -> (forall e, keeps_timeout (handler e)) ->
  keeps_timeout (try_except m catches handler).
Proof.
  intros Hm Hh w. unfold try_except. specialize (Hm w).
  destruct (m w) as [[a|e] w1]; simpl in *; [done|].
  destruct (catches e); simpl; [|done]. by rewrite (Hh e w1).
Qed.

Lemma keeps_if {A} (b : bool) (m1 m2 : M A) :
  keeps_timeout m1 -> keeps_timeout m2 -> keeps_timeout (if b then m1 else m2).
Proof. by destruct b. Qed.

Lemma keeps_print line : keeps_timeout (print line).
Proof. by intros w. Qed.

Lemma keeps_call_report t message : keeps_timeout (call_report t message).
Proof. by intros w. Qed.

Lemma keeps_close : keeps_timeout close.
Proof. by intros w. Qed.

Lemma keeps_reporting report message errorType :
  keeps_timeout (reporting report message errorType).
Proof. intros w. by destruct report, errorType. Qed.

(** [with ConnectionContext(timeout)] puts the default timeout back on
    every way out of its body, whatever the body did to it in between when
    the context changes it. *)
Lemma keeps_ConnectionContext {A} (timeout : option Z) (body : M A) :
  keeps_timeout body -> keeps_timeout (ConnectionContext darwin timeout body).
Proof.
  intros Hb w. unfold ConnectionContext. destruct darwin; [|apply Hb].
  unfold bind, get, with_context, modify, ret. simpl.
  destruct (bool_decide (defaulttimeout w = timeout)); simpl.
  - specialize (Hb w). by destruct (body w).
  - by destruct (body (set_defaulttimeout w timeout)).
Qed.

Lemma keeps_request_version conn : keeps_timeout (request_version net conn).
Proof. intros w. unfold request_version. by destruct (serve _ _ _ _). Qed.

Lemma keeps_getresponse conn : keeps_timeout (getresponse net conn).
Proof. intros w. unfold getresponse. by destruct (serve _ _ _ _). Qed.

Lemma keeps_clientVerifyVersion conn :
  keeps_timeout (clientVerifyVersion version darwin net conn).
Proof.
  unfold clientVerifyVersion.
  apply keeps_bind; [apply keeps_ConnectionContext, keeps_request_version|].
  intros _. apply keeps_bind; [apply keeps_getresponse|]. intros r.
  destruct (negb _).
  - apply keeps_bind; [apply keeps_close|]. intros _. apply keeps_ret.
  - apply keeps_bind; [apply keeps_lift|]. intros b.
    destruct (negb _); [|apply keeps_ret].
    repeat (apply keeps_bind; [first [apply keeps_print|apply keeps_lift]|]; intros ?).
    apply keeps_ret.
Qed.

Lemma keeps_clientScan report : keeps_timeout (clientScan int_unicode net report).
Proof.
  unfold clientScan. apply keeps_try_except.
  - apply keeps_bind.
    + intros w. unfold recvfrom64. by destruct (recv net).
    + intros [buf address].
      repeat (apply keeps_bind; [first [apply keeps_lift|apply keeps_reporting]|]; intros ?).
      apply keeps_ret.
  - intros e. apply keeps_bind; [apply keeps_reporting|]. intros _. apply keeps_ret.
Qed.

Lemma keeps_try_connection address port ssl report timeout :
  keeps_timeout (try_connection version darwin net address port ssl report timeout).
Proof.
  unfold try_connection. apply keeps_try_except.
  - apply keeps_bind.
    + apply keeps_if; [|apply keeps_ret].
      apply keeps_ConnectionContext, keeps_ret.
    + intros conn. apply keeps_bind; [apply keeps_clientVerifyVersion|].
      intros [|]; [apply keeps_ret|].
      apply keeps_bind; [apply keeps_close|]. intros _.
      apply keeps_bind; [apply keeps_reporting|]. intros _. apply keeps_ret.
  - intros e. destruct report;
      (apply keeps_bind; [first [apply keeps_print|apply keeps_call_report]|]);
      intros _; apply keeps_ret.
Qed.

(** X4. On every way out of [clientConnection] (a connection, [None] or an
    exception of the scan; reachable server or not; Darwin or not) the
    default timeout of sockets is what it was before the call: the
    override of [ConnectionContext] never leaks. *)
Theorem clientConnection_keeps_timeout settings report scan timeout :
  keeps_timeout
    (clientConnection version darwin int_unicode net settings report scan timeout).
Proof.
  unfold clientConnection.
  destruct (String.eqb _ _); [|apply keeps_try_connection].
  destruct (negb scan); [apply keeps_ret|].
  apply keeps_bind; [apply keeps_clientScan|]. intros [address port].
  destruct (String.eqb _ _); [apply keeps_ret|apply keeps_try_connection].
Qed.

End TimeoutFacts.

Section OutcomeFacts.
Import Py Net.

Variable version : list Z.
Variable darwin : bool.
Variable int_unicode : string -> result Z.
Variable net : network.

Local Abbreviation clientScan := (Net.clientScan int_unicode net).
Local Abbreviation clientVerifyVersion := (Net.clientVerifyVersion version darwin net).
Local Abbreviation try_connection := (Net.try_connection version darwin net).
Local Abbreviation clientConnection := (Net.clientConnection version darwin int_unicode net).
Local Abbreviation ConnectionContext := (Net.ConnectionContext darwin).
Local Abbreviation accepted := (Net.accepted version net).

(** The request under [ConnectionContext()]: it raises what the server
    makes it raise, and opens the socket otherwise. *)
Lemma request_version_outcome conn w :
  ConnectionContext None (request_version net conn) w
  = match serve net (conn_address conn) (conn_port conn) (conn_ssl conn) with
    | RequestRaises e => (Raise e, w)
    | _ => (Ok tt, set_sock_open w true)
    end.
Proof.
  unfold Net.ConnectionContext, request_version.
  destruct (serve net _ _ _) as [e|e|st b]; (destruct darwin; [|done]);
    unfold bind, get, with_context, modify, ret, raise; simpl;
    destruct (bool_decide (defaulttimeout w = None)); simpl; try done;
    by destruct w.
Qed.

(** [clientVerifyVersion] answers true on an accepted handshake only. *)
Lemma clientVerifyVersion_true conn w :
  fst (clientVerifyVersion conn w) = Ok true ->
  accepted (conn_address conn) (conn_port conn) (conn_ssl conn).
Proof.
  unfold Net.clientVerifyVersion, Net.accepted.
  unfold bind at 1. rewrite request_version_outcome.
  unfold bind at 1. unfold getresponse.
  destruct (serve net _ _ _) as [e|e|st b]; simpl; [done|done|].
  destruct (Z.eqb_spec st OK) as [->|Hst]; simpl; [|done].
  unfold bind at 1. unfold lift. destruct b as [b|e]; simpl; [|done].
  destruct (decide (b = VERSION version)) as [->|Hne]; [done|].
  rewrite bool_decide_eq_false_2 by done. simpl.
  unfold bind, print, modify, lift, ret. simpl.
  rewrite str_utf8_VERSION. by destruct (str_utf8 b).
Qed.


(** The [try] statement returns a connection or [None], and a connection
    on an accepted handshake only. *)
Lemma try_connection_outcome address port ssl report timeout w :
  fst (try_connection address port ssl report timeout w) = Ok None
  \/ (exists conn,
        fst (try_connection address port ssl report timeout w) = Ok (Some conn)
        /\ accepted address port ssl).
Proof.
  destruct (try_connection address port ssl report timeout w) as [r wf] eqn:E.
  simpl. unfold Net.try_connection, try_except in E.
  set (c1 := {| conn_address := address; conn_port := port; conn_ssl := ssl;
                conn_timeout := None |}) in E.
  set (c2 := {| conn_address := address; conn_port := port; conn_ssl := ssl;
                conn_timeout := Some timeout |}) in E.
  destruct (make_connection darwin c1 timeout w) as (w1 & Hm & _).
  assert (Hmake : exists conn w1,
            (if darwin then ConnectionContext (Some timeout) (ret c1) else ret c2) w
            = (Ok conn, w1)
            /\ conn_address conn = address /\ conn_port conn = port
            /\ conn_ssl conn = ssl).
  { destruct darwin.
    - exists c1, w1. by rewrite Hm.
    - by exists c2, w. }
  clear w1 Hm. destruct Hmake as (conn & w1 & Hmk & Hca & Hcp & Hcs).
  unfold bind at 1 in E. rewrite Hmk in E. unfold bind at 1 in E.
  pose proof (clientVerifyVersion_true conn w1) as Htrue.
  destruct (clientVerifyVersion conn w1) as [[[|]|e] w2]; simpl in Htrue.
  - right. exists conn. split; [by injection E as <- _|].
    rewrite <- Hca, <- Hcp, <- Hcs. by apply Htrue.
  - left. destruct report; unfold close, reporting, call_report, print,
      bind, modify, ret, raise in E; simpl in E; by injection E as <- _.
  - left. destruct report; unfold call_report, print, bind, modify, ret in E;
      simpl in E; by injection E as <- _.
Qed.



(** X6. [clientConnection] raises nothing of its own: an exception leaves it
    only when the address is ["[default]"], scanning is allowed, and
    [clientScan()], called with no [report], raised it. Failures of
    the connection and of the handshake all end in [None]. *)
Theorem clientConnection_raises_only_scan settings report scan timeout w e :
  fst (clientConnection settings report scan timeout w) = Raise e ->
  server_address settings = "[default]"
  /\ scan = true
  /\ fst (clientScan NoReport w) = Raise e.
Proof.
  unfold Net.clientConnection.
  assert (Hno : forall a p w0,
            fst (try_connection a p (use_ssl settings) report timeout w0)
            <> Raise e).
  { intros a p w0 H.
    destruct (try_connection_outcome a p (use_ssl settings) report timeout w0)
      as [H'|(conn & H' & _)]; congruence. }
  destruct (String.eqb_spec (server_address settings) "[default]") as [Ha|Ha];
    [|intros H; by destruct (Hno _ _ _ H)].
  destruct scan; simpl; [|done].
  unfold bind at 1.
  destruct (clientScan NoReport w) as [[[a p]|e'] w1]; simpl.
  - destruct (String.eqb a ""); [done|]. intros H. by destruct (Hno _ _ _ H).
  - by intros [= ->].
Qed.

(** X7. A datagram that is not an integer is not told to [report]: when the
    payload cannot be decoded, or [int] refuses the text, [clientScan]
    raises that error to its caller, with or without a [report], and
    tells nothing. *)
Theorem clientScan_bad_payload payload sender report w e :
  recv net = RecvPacket payload sender ->
  (str_utf8 (List.firstn 64 payload) = Raise e
   \/ exists text, str_utf8 (List.firstn 64 payload) = Ok text
                   /\ py_int int_unicode text = Raise e) ->
  is_socket_timeout e = false ->
  clientScan report w = (Raise e, w).
Proof.
  intros Hr Hbad He. unfold Net.clientScan, try_except, bind, recvfrom64, lift.
  rewrite Hr. destruct sender as [address sport]. simpl.
  destruct Hbad as [->|(text & -> & ->)]; simpl; by rewrite He.
Qed.

End OutcomeFacts.


(** No master on the network and the address left at ["[default]"]. *)
Lemma clientConnection_raises_only_scan_witness :
  fst (Net.clientConnection [1; 8; 1] false Net.int_ascii_only
         (Net.mock_master 200 []) Net.default_settings Net.Report true 5
         Net.initial_world)
  = Py.Raise (Py.Exn Py.IOError "No master server on network")
  /\ Net.server_address Net.default_settings = "[default]"
  /\ fst (Net.clientScan Net.int_ascii_only (Net.mock_master 200 [])
            Net.NoReport Net.initial_world)
     = Py.Raise (Py.Exn Py.IOError "No master server on network").
Proof.
  assert (H : fst (Net.clientConnection [1; 8; 1] false Net.int_ascii_only
                     (Net.mock_master 200 []) Net.default_settings Net.Report
                     true 5 Net.initial_world)
              = Py.Raise (Py.Exn Py.IOError "No master server on network")).
  { vm_compute. reflexivity. }
  split; [exact H|].
  destruct (clientConnection_raises_only_scan _ _ _ _ _ _ _ _ _ _ H)
    as (Ha & _ & Hs).
  by split.
Defined.

(** A datagram that holds [80x80]. *)
Lemma clientScan_bad_payload_witness :
  Net.clientScan Net.int_ascii_only
    (Net.broadcasting (Net.bytes_of "80x80") ("192.168.0.2", 40000))
    Net.Report Net.initial_world
  = (Py.Raise Net.invalid_literal, Net.initial_world).
Proof.
  apply (clientScan_bad_payload Net.int_ascii_only
           (Net.broadcasting (Net.bytes_of "80x80") ("192.168.0.2", 40000))
           (Net.bytes_of "80x80") ("192.168.0.2", 40000)).
  - reflexivity.
  - right. exists "80x80". split; reflexivity.
  - reflexivity.
Defined.

(* ===================================================================== *)
(** * Properties of NoErrorDialogContext *)
(* ===================================================================== *)

Section ErrorModeFacts.
Import Py Ctx.

Lemma str_ge_first c rest : str_ge (String c rest) "5" = (53 <=? N_of_ascii c)%N.
Proof.
  unfold str_ge. simpl. unfold Ascii.compare.
  change (N_of_ascii "5") with 53%N.
  destruct (N.compare_spec (N_of_ascii c) 53) as [H|H|H].
  - destruct rest; simpl; symmetry; apply N.leb_le; lia.
  - symmetry. apply N.leb_gt. lia.
  - symmetry. apply N.leb_le. lia.
Qed.

(** X8. Which class is defined hangs on the first character of the version
    text alone: on Windows the class that sets the error mode is defined
    exactly when that character is ['5'] or comes after it, since the
    versions are compared as texts; for a version that starts with a
    digit below 5, as [10.0.19041] does, and on every other system, the
    context does nothing. *)
Theorem sets_error_mode_first_character system (c : ascii) (rest : string) :
  (system = "Windows" \/ system = "win32" ->
   sets_error_mode system (String c rest) = (53 <=? N_of_ascii c)%N
   /\ sets_error_mode system "" = false)
  /\ (system <> "Windows" -> system <> "win32" ->
      forall version, sets_error_mode system version = false)
  /\ (forall A (body : M Z A) version,
        sets_error_mode system version = false ->
        NoErrorDialogContext system version body = body).
Proof.
  split; [|split].
  - intros Hs. unfold sets_error_mode. rewrite str_ge_first.
    by destruct Hs as [-> | ->].
  - intros H1 H2 version. unfold sets_error_mode.
    destruct (String.eqb_spec system "Windows"); [done|].
    by destruct (String.eqb_spec system "win32").
  - intros A body version H. unfold NoErrorDialogContext. by rewrite H.
Qed.

(** X9. Where the error mode is set: the body runs with the bit [0x0002]
    added to the mode the process had and every other bit as it was,
    and after the block the mode is the one the process had before it,
    whether the body returned or raised and whatever mode it left. *)
Theorem NoErrorDialogContext_restores system version A (body : M Z A)
    (mode0 : Z) :
  sets_error_mode system version = true ->
  fst (NoErrorDialogContext system version body mode0)
    = fst (body (Z.lor mode0 0x0002))
  /\ snd (NoErrorDialogContext system version body mode0) = mode0
  /\ Z.testbit (Z.lor mode0 0x0002) 1 = true
  /\ forall i, i <> 1 -> Z.testbit (Z.lor mode0 0x0002) i = Z.testbit mode0 i.
Proof.
  intros Hs. unfold NoErrorDialogContext. rewrite Hs.
  cbv [error_mode_enter error_mode_exit with_ SetErrorMode].
  destruct (body (Z.lor mode0 2)) as [r m]. cbn [fst snd].
  split; [done|]. split; [done|]. split.
  - rewrite Z.lor_spec. change (Z.testbit 2 1) with true. apply orb_true_r.
  - intros i Hi. rewrite Z.lor_spec.
    assert (Z.testbit 2 i = false) as ->; [|apply orb_false_r].
    destruct i as [|p|p]; [done| |done].
    destruct p as [p|p|]; try done; by destruct p.
Qed.

End ErrorModeFacts.

(** Windows 6.1 sets the error mode; Windows 10.0 does not. *)
Lemma sets_error_mode_first_character_witness :
  Ctx.sets_error_mode "Windows" "6.1.7601" = true
  /\ Ctx.sets_error_mode "Windows" "10.0.19041" = false
  /\ Ctx.sets_error_mode "Linux" "6.1.7601" = false.
Proof.
  destruct (sets_error_mode_first_character "Windows" "6" ".1.7601")
    as (H6 & _ & _).
  destruct (sets_error_mode_first_character "Windows" "1" "0.0.19041")
    as (H1 & _ & _).
  destruct (sets_error_mode_first_character "Linux" "6" ".1.7601")
    as (_ & HL & _).
  split; [by destruct (H6 (or_introl eq_refl)) as [-> _]|].
  split; [by destruct (H1 (or_introl eq_refl)) as [-> _]|].
  by apply HL.
Defined.

(** A body that raises after it has cleared the mode. *)
Lemma NoErrorDialogContext_restores_witness :
  Ctx.NoErrorDialogContext "Windows" "6.1.7601"
    (fun _ : Z => (Py.Raise (A := unit) (Py.Exn Py.IOError "render failed"), 0))
    0x8001
  = (Py.Raise (Py.Exn Py.IOError "render failed"), 0x8001).
Proof.
  pose proof (NoErrorDialogContext_restores "Windows" "6.1.7601" unit
                (fun _ : Z => (Py.Raise (Py.Exn Py.IOError "render failed"), 0))
                0x8001 eq_refl) as (H1 & H2 & _).
  destruct (Ctx.NoErrorDialogContext _ _ _ _) as [r m]. simpl in *.
  by rewrite H1, H2.
Defined.

(* ===================================================================== *)
(** * Properties of cacheName and cachePath *)
(* ===================================================================== *)

Section CacheFacts.
Import Py Cache.

Lemma all_below_spec k f n :
  all_below k f = true -> (n < N.of_nat k)%N -> f n = true.
Proof.
  induction k as [|k IH]; simpl; [lia|].
  rewrite andb_true_iff. intros [Hk Hr] Hn.
  destruct (decide (n = N.of_nat k)) as [->|Hne]; [done|].
  apply IH; [done|lia].
Qed.

(** Below 256, [%02X] writes two digits: the sixteens and the units. *)
Lemma fmt_02X_small (n : N) :
  (n < 256)%N ->
  exists hi lo,
    fmt_02X n = String hi (String lo "")
    /\ hex_value hi = Some (n / 16)%N /\ hex_value lo = Some (n mod 16)%N.
Proof.
  intros Hn.
  assert (Hf : String.eqb (fmt_02X n)
                 (String (hex_digit (n / 16)) (String (hex_digit (n mod 16)) ""))
               = true).
  { apply (all_below_spec 256
             (fun n => String.eqb (fmt_02X n)
                (String (hex_digit (n / 16)) (String (hex_digit (n mod 16)) ""))));
      [by vm_compute|done]. }
  assert (Hv : forall d, (d < 16)%N -> hex_value (hex_digit d) = Some d).
  { intros d Hd.
    apply (all_below_spec 16
             (fun d => bool_decide (hex_value (hex_digit d) = Some d)) d) in Hd;
      [by apply bool_decide_eq_true in Hd|by vm_compute]. }
  apply String.eqb_eq in Hf. eexists _, _. split; [exact Hf|].
  split; apply Hv.
  - apply N.Div0.div_lt_upper_bound. lia.
  - apply N.mod_lt. lia.
Qed.

Lemma concat_empty_cons (x : string) (xs : list string) :
  String.concat "" (x :: xs) = x +:+ String.concat "" xs.
Proof.
  destruct xs as [|y ys]; simpl; [|done].
  induction x as [|c x IH]; [done|].
  change (String c x +:+ "") with (String c (x +:+ "")). congruence.
Qed.

Lemma decode_cacheName (ob_name : list N) :
  Forall (fun n => (n < 256)%N) ob_name ->
  decode_pairs (cacheName ob_name "") = Some ob_name
  /\ String.length (cacheName ob_name "") = (2 * List.length ob_name)%nat.
Proof.
  unfold cacheName. simpl.
  induction 1 as [|n ns Hn _ [IHd IHl]]; [done|].
  cbn [List.map]. rewrite concat_empty_cons.
  destruct (fmt_02X_small n Hn) as (hi & lo & -> & Hhi & Hlo).
  change (String hi (String lo "") +:+ String.concat "" (List.map fmt_02X ns))
    with (String hi (String lo (String.concat "" (List.map fmt_02X ns)))).
  cbn [decode_pairs String.length].
  rewrite Hhi, Hlo, IHd, IHl. split; [|simpl; lia].
  do 2 f_equal. pose proof (N.div_mod n 16). lia.
Qed.

(** X10. The name made from the name of the object, when the point cache has
    none, can be read back as long as every character of the object's
    name is below 256: it is two hexadecimal digits per character, so two
    such names that differ give two cache names that differ. With
    characters from 256 on the digits run together and two names can
    give one cache name. *)
Theorem cacheName_hex_round_trip :
  (forall ob_name,
     Forall (fun n => (n < 256)%N) ob_name ->
     decode_pairs (cacheName ob_name "") = Some ob_name
     /\ String.length (cacheName ob_name "") = (2 * List.length ob_name)%nat)
  /\ (forall name1 name2,
        Forall (fun n => (n < 256)%N) name1 ->
        Forall (fun n => (n < 256)%N) name2 ->
        cacheName name1 "" = cacheName name2 "" -> name1 = name2)
  /\ cacheName [0x10A; 0xBC]%N "" = cacheName [0x10; 0xABC]%N "".
Proof.
  split; [apply decode_cacheName|]. split; [|by vm_compute].
  intros name1 name2 H1 H2 Heq.
  destruct (decode_cacheName name1 H1) as [D1 _].
  destruct (decode_cacheName name2 H2) as [D2 _].
  rewrite Heq in D1. congruence.
Qed.

End CacheFacts.

(** The objects [Cube] and [Cubf]. *)
Lemma cacheName_hex_round_trip_witness :
  Cache.cacheName [67; 117; 98; 101]%N "" = "43756265"
  /\ Cache.decode_pairs "43756265" = Some [67; 117; 98; 101]%N
  /\ Cache.cacheName [67; 117; 98; 101]%N ""
     <> Cache.cacheName [67; 117; 98; 102]%N "".
Proof.
  destruct cacheName_hex_round_trip as (Hrt & Hinj & _).
  assert (H1 : Forall (fun n => (n < 256)%N) [67; 117; 98; 101]%N)
    by (repeat constructor).
  assert (H2 : Forall (fun n => (n < 256)%N) [67; 117; 98; 102]%N)
    by (repeat constructor).
  split; [reflexivity|]. split.
  - exact (proj1 (Hrt _ H1)).
  - intros Heq. apply (Hinj _ _ H1 H2) in Heq. discriminate Heq.
Defined.

Section CachePathFacts.
Import Py Cache Path.

Lemma append_cons a s t : String a s +:+ t = String a (s +:+ t).
Proof. reflexivity. Qed.

Lemma append_nil t : "" +:+ t = t.
Proof. reflexivity. Qed.

Lemma rpartition_after_no_sep t :
  forall_chars no_sep t = true -> rpartition_after t sep = ("", t).
Proof.
  induction t as [|a t IH]; simpl; [done|].
  rewrite andb_true_iff. intros [Ha Ht]. rewrite (IH Ht). simpl.
  unfold no_sep in Ha. by destruct (Ascii.eqb a sep).
Qed.

Lemma rpartition_after_app h t :
  forall_chars no_sep t = true ->
  rpartition_after (h +:+ String sep t) sep = (h +:+ String sep "", t).
Proof.
  intros Ht. induction h as [|a h IH].
  - rewrite !append_nil. simpl. by rewrite (rpartition_after_no_sep t Ht).
  - rewrite !append_cons. cbn [rpartition_after]. rewrite IH.
    destruct h; by rewrite ?append_nil, ?append_cons.
Qed.

Lemma all_char_sep_app d : all_char (d +:+ String sep "") sep = all_char d sep.
Proof.
  induction d as [|a d IH]; [done|].
  rewrite append_cons. cbn [all_char]. by rewrite IH.
Qed.

Lemma all_char_endswith d :
  d <> "" -> endswith_char d sep = false -> all_char d sep = false.
Proof.
  induction d as [|a d IH]; [done|]. intros _ He.
  destruct d as [|b d].
  - simpl in *. by rewrite He.
  - change (Ascii.eqb a sep && all_char (String b d) sep = false).
    rewrite IH; [apply andb_false_r|done|exact He].
Qed.

Lemma rstrip_char_sep_app d :
  endswith_char d sep = false -> rstrip_char (d +:+ String sep "") sep = d.
Proof.
  induction d as [|a d IH]; intros He; [done|].
  rewrite append_cons. cbn [rstrip_char].
  destruct d as [|b d].
  - rewrite append_nil. simpl in *. by rewrite He.
  - rewrite IH by exact He. by rewrite andb_false_r.
Qed.

(** [posixpath.split] of a directory, a slash and a name. *)
Lemma posix_split_join d name :
  d <> "" -> endswith_char d sep = false ->
  forall_chars no_sep name = true ->
  posix_split (d +:+ String sep name) = (d, name).
Proof.
  intros Hd He Hn. unfold posix_split.
  rewrite (rpartition_after_app d name Hn).
  rewrite all_char_sep_app, (all_char_endswith d Hd He).
  destruct (String.eqb_spec (d +:+ String sep "") "") as [E|_].
  - by destruct d.
  - simpl. by rewrite rstrip_char_sep_app.
Qed.

Lemma rfind_go_absent s c i best :
  forall_chars (fun a => negb (Ascii.eqb a c)) s = true ->
  rfind_go s c i best = best.
Proof.
  revert i best. induction s as [|a s IH]; intros i best; simpl; [done|].
  rewrite andb_true_iff. intros [Ha Hs]. rewrite (IH _ _ Hs).
  by destruct (Ascii.eqb a c).
Qed.

Lemma rfind_go_last s t c i best :
  forall_chars (fun a => negb (Ascii.eqb a c)) t = true ->
  rfind_go (s +:+ String c t) c i best = i + Z.of_nat (String.length s).
Proof.
  intros Ht. revert i best. induction s as [|a s IH]; intros i best.
  - rewrite append_nil. cbn [rfind_go String.length].
    rewrite Ascii.eqb_refl, (rfind_go_absent t c _ _ Ht). lia.
  - rewrite append_cons. cbn [rfind_go String.length]. rewrite IH. lia.
Qed.

Lemma substring_app_l a b : String.substring 0 (String.length a) (a +:+ b) = a.
Proof.
  induction a as [|c a IH].
  - rewrite append_nil. by destruct b.
  - rewrite append_cons. cbn [String.length String.substring]. by rewrite IH.
Qed.

Lemma drop_app_l a b : drop (String.length a) (a +:+ b) = b.
Proof.
  induction a as [|c a IH]; [by destruct b|].
  rewrite append_cons. exact IH.
Qed.

(** [posixpath.splitext] of a name that starts with a character other
    than a dot: it is cut at its last dot. *)
Lemma posix_splitext_stem c stem ext :
  no_dot c = true ->
  forall_chars no_sep (String c stem) = true ->
  forall_chars no_sep ext = true ->
  forall_chars no_dot ext = true ->
  posix_splitext (String c stem +:+ String "." ext)
  = (String c stem, String "." ext).
Proof.
  intros Hc Hs He Hd. unfold posix_splitext, rfind.
  assert (Hsep : rfind_go (String c stem +:+ String "." ext) sep 0 (-1) = -1).
  { apply rfind_go_absent. rewrite forall_chars_app.
    fold no_sep. rewrite Hs. cbn [forall_chars]. by rewrite He. }
  rewrite Hsep, (rfind_go_last (String c stem) ext "." 0 (-1)) by exact Hd.
  replace (Z.to_nat (0 + Z.of_nat (String.length (String c stem))))
    with (String.length (String c stem)) by lia.
  assert (Hlt : Z.ltb (-1) (0 + Z.of_nat (String.length (String c stem))) = true)
    by (apply Z.ltb_lt; lia).
  rewrite Hlt. change (Z.to_nat (-1 + 1)) with O.
  unfold slice. rewrite Nat.sub_0_r, substring_app_l, drop_app_l.
  cbn [all_char]. unfold no_dot in Hc. by destruct (Ascii.eqb c ".").
Qed.

(** X11. The cache of a blend file is a directory beside it: for a file
    [directory/stem.ext] (the directory not empty and not ending in a
    slash, the stem starting with a character other than a dot, no slash
    in stem and extension, no dot in the extension), [cachePath] gives
    [directory/blendcache_stem]. Dots inside the stem are kept. *)
Theorem cachePath_beside_file directory (c : ascii) (stem ext : string) :
  directory <> "" ->
  endswith_char directory sep = false ->
  no_dot c = true ->
  forall_chars no_sep (String c stem) = true ->
  forall_chars no_sep ext = true ->
  forall_chars no_dot ext = true ->
  cachePath (directory +:+ "/" +:+ String c stem +:+ "." +:+ ext)
  = directory +:+ "/blendcache_" +:+ String c stem.
Proof.
  intros Hd He Hc Hs Hx Hdot. unfold cachePath.
  change (directory +:+ "/" +:+ String c stem +:+ "." +:+ ext)
    with (directory +:+ String sep (String c stem +:+ String "." ext)).
  rewrite posix_split_join; [|done|done|].
  - by rewrite posix_splitext_stem.
  - rewrite forall_chars_app, Hs. cbn [forall_chars]. by rewrite Hx.
Qed.

(** X12. A file name with no directory has its cache at the root of the file
    system: [cachePath] of a text with no slash starts with a slash,
    the empty directory part being joined with [os.sep]. *)
Theorem cachePath_bare_name (name : string) :
  forall_chars no_sep name = true ->
  cachePath name = "/blendcache_" +:+ fst (posix_splitext name)
  /\ posix_isabs (cachePath name) = true.
Proof.
  intros Hn. unfold cachePath, posix_split.
  rewrite (rpartition_after_no_sep name Hn). simpl.
  by destruct (posix_splitext name).
Qed.

End CachePathFacts.

Lemma cachePath_beside_file_witness :
  Cache.cachePath "/home/user/proj/my.scene.v2.blend"
  = "/home/user/proj/blendcache_my.scene.v2".
Proof.
  apply (cachePath_beside_file "/home/user/proj" "m" "y.scene.v2" "blend");
    by vm_compute.
Defined.

Lemma cachePath_bare_name_witness :
  Cache.cachePath "scene.blend" = "/blendcache_scene".
Proof.
  apply (proj1 (cachePath_bare_name "scene.blend" eq_refl)).
Defined.

(* ===================================================================== *)
(** * Properties of getResults and of the script's entry point *)
(* ===================================================================== *)

Section StrIntFacts.
Import Py Net.

Lemma decimal_value_snoc ds d : decimal_value (ds ++ [d]) = 10 * decimal_value ds + d.
Proof. unfold decimal_value. by rewrite List.fold_left_app. Qed.

Lemma pretty_N_char_digit x :
  (x < 10)%N -> pretty_N_char x = digit_char (Z.of_N x).
Proof.
  intros H.
  assert (x = 0 \/ x = 1 \/ x = 2 \/ x = 3 \/ x = 4 \/ x = 5 \/ x = 6
          \/ x = 7 \/ x = 8 \/ x = 9)%N as Hx by lia.
  repeat (destruct Hx as [->|Hx]; [reflexivity|]). by subst.
Qed.

(** The digits [pretty] writes in front of a run of digits are the
    decimal digits of the number. *)
Lemma pretty_N_go_digits x ds :
  exists ds', Forall is_digit ds'
    /\ pretty_N_go x (digits_text ds) = digits_text (ds' ++ ds)
    /\ decimal_value ds' = Z.of_N x
    /\ ((0 < x)%N -> ds' <> []).
Proof.
  revert ds. induction (N.lt_wf_0 x) as [x _ IH]; intros ds.
  assert (x = 0 \/ 0 < x)%N as [->|Hx] by lia.
  - exists []. repeat split; [constructor|lia].
  - rewrite pretty_N_go_step by done.
    assert (Hm : (x `mod` 10 < 10)%N) by (apply N.mod_lt; lia).
    rewrite (pretty_N_char_digit _ Hm).
    change (String (digit_char (Z.of_N (x `mod` 10))) (digits_text ds))
      with (digits_text (Z.of_N (x `mod` 10) :: ds)).
    destruct (IH (x `div` 10)%N (N.div_lt x 10 Hx eq_refl)
                (Z.of_N (x `mod` 10) :: ds)) as (ds' & Hds' & Heq & Hval & _).
    exists (ds' ++ [Z.of_N (x `mod` 10)]). repeat split.
    + apply Forall_app. split; [exact Hds'|].
      constructor; [|constructor]. split; [apply N2Z.is_nonneg|].
      apply N2Z.inj_lt in Hm. change (Z.of_N 10) with 10 in Hm.
      generalize dependent (Z.of_N (x `mod` 10)). intros; lia.
    + rewrite Heq. by rewrite <- List.app_assoc.
    + rewrite decimal_value_snoc, Hval.
      rewrite (N.div_mod x 10) at 3 by lia.
      by rewrite N2Z.inj_add, N2Z.inj_mul.
    + intros _. by destruct ds'.
Qed.

Lemma pretty_pos_digits (p : positive) :
  exists ds, ds <> [] /\ Forall is_digit ds
    /\ pretty (N.pos p) = digits_text ds /\ decimal_value ds = Z.pos p.
Proof.
  destruct (pretty_N_go_digits (N.pos p) []) as (ds & Hds & Heq & Hval & Hne).
  exists ds. rewrite List.app_nil_r in Heq. repeat split.
  - by apply Hne.
  - exact Hds.
  - exact Heq.
  - exact Hval.
Qed.

(** [int] of a minus sign and a run of digits. *)
Lemma int_ascii_minus_digits ds :
  ds <> [] -> Forall is_digit ds ->
  int_ascii (String "-" (digits_text ds)) = Ok (- decimal_value ds).
Proof.
  intros Hne H. destruct H as [|d ds Hd Hds]; [done|].
  unfold int_ascii. cbn [lstrip_space]. change (is_space "-") with false.
  cbv iota beta. unfold int_magnitude, digits_text. cbn [List.map string_of_list_ascii].
  rewrite (digit_of_digit_char d Hd).
  fold (digits_text ds). rewrite (int_digits_run d ds Hds). cbn [all_space].
  unfold decimal_value. cbn [List.fold_left].
  replace (10 * 0 + d) with d by lia. f_equal; lia.
Qed.

Lemma str_int_ascii n : forall_chars is_ascii (Results.str_int n) = true.
Proof.
  apply (forall_chars_impl Url.is_digit_or_minus); [|apply fmt_i_chars].
  intros c. unfold Url.is_digit_or_minus, is_ascii.
  rewrite orb_true_iff, andb_true_iff, !N.leb_le, N.eqb_eq, N.ltb_lt. lia.
Qed.

(** [int(str(n)) == n] *)
Lemma int_ascii_str_int n : int_ascii (Results.str_int n) = Ok n.
Proof.
  unfold Results.str_int, pretty, pretty_Z. destruct n as [|p|p].
  - reflexivity.
  - destruct (pretty_pos_digits p) as (ds & Hne & Hds & Heq & Hval).
    change (pretty p) with (pretty (N.pos p)). rewrite Heq, <- Hval.
    by apply int_ascii_digits.
  - destruct (pretty_pos_digits p) as (ds & Hne & Hds & Heq & Hval).
    change (pretty p) with (pretty (N.pos p)). rewrite Heq.
    change ("-" +:+ digits_text ds) with (String "-" (digits_text ds)).
    rewrite (int_ascii_minus_digits ds Hne Hds), Hval. reflexivity.
Qed.

Lemma py_int_str_int int_unicode n :
  py_int int_unicode (Results.str_int n) = Ok n.
Proof.
  unfold py_int, is_ascii_text.
  change (list_byte_of_string (Results.str_int n)) with (bytes_of (Results.str_int n)).
  rewrite (bytes_of_ascii_text _ (str_int_ascii n)). apply int_ascii_str_int.
Qed.

Lemma str_int_not_dashes n : Results.str_int n <> "--".
Proof.
  intros H. pose proof (int_ascii_str_int n) as Hn. rewrite H in Hn. discriminate.
Qed.

End StrIntFacts.

Section EntryFacts.
Import Py Results.

Local Abbreviation no_dashes := (Forall (fun s : string => s <> "--")).

Lemma list_index_first (l r : list string) :
  no_dashes l -> list_index "--" (l ++ "--" :: r) = Some (length l).
Proof.
  induction 1 as [|s l Hs _ IH]; simpl; [done|].
  apply String.eqb_neq in Hs. by rewrite Hs, IH.
Qed.

Lemma list_index_none (l : list string) :
  no_dashes l -> list_index "--" l = None.
Proof.
  induction 1 as [|s l Hs _ IH]; simpl; [done|].
  apply String.eqb_neq in Hs. by rewrite Hs, IH.
Qed.

(** A list of texts has no ["--"], or a first one. *)
Lemma first_dashes (l : list string) :
  no_dashes l
  \/ exists l1 l2, no_dashes l1 /\ l = l1 ++ "--" :: l2.
Proof.
  induction l as [|s l [IH|(l1 & l2 & H1 & ->)]].
  - left. constructor.
  - destruct (decide (s = "--")) as [->|Hs].
    + right. exists [], l. split; [constructor|done].
    + left. by constructor.
  - right. destruct (decide (s = "--")) as [->|Hs].
    + exists [], (l1 ++ "--" :: l2). split; [constructor|done].
    + exists (s :: l1), l2. split; [by constructor|done].
Qed.

(** What follows the first ["--"] is what the entry point reads. *)
Lemma skipn_start_dashes (l r : list string) :
  no_dashes l -> List.skipn (start (l ++ "--" :: r)) (l ++ "--" :: r) = r.
Proof.
  intros Hl. unfold start. rewrite (list_index_first l r Hl).
  change (l ++ "--" :: r) with (l ++ ["--"] ++ r).
  rewrite List.app_assoc.
  replace (S (length l)) with (length (l ++ ["--"]))
    by (rewrite List.length_app; simpl; lia).
  apply drop_app_length.
Qed.

Lemma skipn_start_none (l : list string) :
  no_dashes l -> List.skipn (start l) l = l.
Proof. intros Hl. unfold start. by rewrite (list_index_none l Hl). Qed.

Lemma range_arguments_spec r a :
  range_arguments r = Ok a ->
  no_dashes a /\ exists x a', a = x :: a' /\ (x = "-s" \/ x = "-f").
Proof.
  destruct r as [|s [|e [|f r]]]; simpl; intros H; inversion H; subst; clear H.
  - split; [|by eauto].
    repeat constructor; [done|apply str_int_not_dashes].
  - split; [|by eauto].
    repeat constructor; try done; apply str_int_not_dashes.
  - split; [|by eauto].
    repeat constructor; [done|apply str_int_not_dashes].
Qed.

Lemma frame_arguments_spec frame_ranges fa :
  frame_arguments frame_ranges = Ok fa ->
  no_dashes fa
  /\ (fa = [] \/ exists x fa', fa = x :: fa' /\ (x = "-s" \/ x = "-f")).
Proof.
  revert fa. induction frame_ranges as [|r rest IH]; intros fa; simpl.
  - intros H. inversion H. split; [constructor|by left].
  - destruct (range_arguments r) as [a|e] eqn:Hr; [|done].
    destruct (frame_arguments rest) as [b|e] eqn:Hb; [|done].
    intros H. inversion H; subst; clear H.
    destruct (range_arguments_spec r a Hr) as (Ha & x & a' & -> & Hx).
    destruct (IH b eq_refl) as (Hb' & _). split.
    + apply Forall_app. by split.
    + right. exists x, (a' ++ b). by split.
Qed.

Lemma frame_arguments_returns frame_ranges :
  Forall (fun r => r <> []) frame_ranges ->
  exists fa, frame_arguments frame_ranges = Ok fa.
Proof.
  induction 1 as [|r rest Hr _ (fa & IH)]; simpl; [by eauto|].
  rewrite IH. destruct r as [|s [|e [|f r]]]; [done|by eauto..].
Qed.

Lemma posix_join_temp t : Path.posix_join t "netrender_temp.blend" <> "--".
Proof.
  intros H. apply (f_equal String.length) in H. revert H.
  unfold Path.posix_join.
  change (startswith "netrender_temp.blend" "/") with false. cbv iota.
  destruct (String.eqb t "" || endswith_char t sep);
    rewrite length_app; simpl; lia.
Qed.

(** The command line of [getResults], cut at the place of its own
    ["--"]. *)
Lemma arguments_shape p address port job rx ry rp frame_ranges fa :
  frame_arguments frame_ranges = Ok fa ->
  arguments Path.posix_join p address port job rx ry rp frame_ranges
  = Ok (([argv0 p; "-b"; "-noaudio";
          Path.posix_join (tempdir p) "netrender_temp.blend"; "-o";
          output p; "-P"; script p] ++ fa)
        ++ "--" :: ["GetResults"; address; str_int port; job;
                    str_int rx; str_int ry; str_int rp]).
Proof.
  intros H. unfold arguments. rewrite H. by rewrite <- List.app_assoc.
Qed.

Lemma main_no_action l a r :
  no_dashes l -> a <> "FileInfo" -> a <> "GetResults" ->
  main (l ++ "--" :: a :: r) = Ok NoAction.
Proof.
  intros Hl H1 H2. unfold main. rewrite (skipn_start_dashes l (a :: r) Hl).
  apply String.eqb_neq in H1, H2. by rewrite H1, H2.
Qed.

(** X13. The command line that [getResults] builds is read back by the
    entry point of the script as the call of [_getResults] with the same
    server address, job and numbers: when every frame range has an
    element and none of [sys.argv[0]], the output path and [__file__] is
    ["--"], the entry point run on [arguments] calls [_getResults] with
    the six texts after ["GetResults"], and [_getResults] assigns the
    address, the job and, through [int(str(n))], the port and the three
    resolution numbers that were given to [getResults], then the three
    flags, and raises nothing. *)
Theorem getResults_round_trip (int_unicode : string -> result Z)
    (p : process) (address job : string) (port rx ry rp : Z)
    (frame_ranges : list (list Z)) :
  Forall (fun r => r <> []) frame_ranges ->
  argv0 p <> "--" -> output p <> "--" -> script p <> "--" ->
  exists argv,
    arguments Path.posix_join p address port job rx ry rp frame_ranges
    = Ok argv
    /\ main argv
       = Ok (GetResults address (str_int port) job
               (str_int rx) (str_int ry) (str_int rp))
    /\ _getResults (Net.py_int int_unicode) address (str_int port) job
         (str_int rx) (str_int ry) (str_int rp)
       = ([(server_address, VStr address); (server_port, VInt port);
           (job_id, VStr job); (engine, VStr "NET_RENDER");
           (resolution_x, VInt rx); (resolution_y, VInt ry);
           (resolution_percentage, VInt rp);
           (use_full_sample, VBool false); (use_compositing, VBool false);
           (use_border, VBool false)], None).
Proof.
  intros Hfr H0 Ho Hs.
  destruct (frame_arguments_returns frame_ranges Hfr) as (fa & Hfa).
  destruct (frame_arguments_spec frame_ranges fa Hfa) as (Hnd & _).
  eexists. split; [by apply arguments_shape|]. split.
  - unfold main. rewrite skipn_start_dashes.
    + reflexivity.
    + apply Forall_app. split; [|exact Hnd].
      repeat constructor; try done. apply posix_join_temp.
  - unfold _getResults. by rewrite !py_int_str_int.
Qed.

(** X14. When [sys.argv[0]], the output path or [__file__] is the text
    ["--"], the entry point run on the command line of [getResults] stops
    at that text: it takes the argument after it for the action, which is
    neither ["FileInfo"] nor ["GetResults"], and does nothing; no
    exception tells the caller. *)
Theorem getResults_dashes_in_arguments
    (p : process) (address job : string) (port rx ry rp : Z)
    (frame_ranges : list (list Z)) (argv : list string) :
  argv0 p = "--" \/ output p = "--" \/ script p = "--" ->
  arguments Path.posix_join p address port job rx ry rp frame_ranges
  = Ok argv ->
  main argv = Ok NoAction.
Proof.
  intros Hd. unfold arguments.
  destruct (frame_arguments frame_ranges) as [fa|e] eqn:Hfa; [|done].
  intros H. inversion H; subst; clear H.
  destruct (frame_arguments_spec frame_ranges fa Hfa) as (Hnd & Hhd).
  pose proof (posix_join_temp (tempdir p)) as Hj.
  destruct (decide (argv0 p = "--")) as [E0|N0].
  { rewrite E0. by apply (main_no_action []); [constructor|..]. }
  destruct (decide (output p = "--")) as [Eo|No].
  { rewrite Eo.
    apply (main_no_action
             [argv0 p; "-b"; "-noaudio";
              Path.posix_join (tempdir p) "netrender_temp.blend"; "-o"]
             "-P"); [|done..].
    by repeat constructor. }
  destruct Hd as [?|[?|Es]]; [done..|]. rewrite Es.
  destruct Hhd as [->|(x & fa' & -> & Hx)].
  - apply (main_no_action
             [argv0 p; "-b"; "-noaudio";
              Path.posix_join (tempdir p) "netrender_temp.blend"; "-o";
              output p; "-P"] "--"); [|done..].
    by repeat constructor.
  - apply (main_no_action
             [argv0 p; "-b"; "-noaudio";
              Path.posix_join (tempdir p) "netrender_temp.blend"; "-o";
              output p; "-P"] x); [|by destruct Hx as [->| ->]..].
    by repeat constructor.
Qed.

End EntryFacts.

Section EntryErrors.
Import Py Results.

Local Abbreviation no_dashes := (Forall (fun s : string => s <> "--")).

(** Nothing is left for the entry point to read exactly when the command
    line is empty or its first ["--"] is its last element. *)
Lemma skipn_start_nil (argv : list string) :
  List.skipn (start argv) argv = []
  <-> argv = [] \/ exists l, no_dashes l /\ argv = l ++ ["--"].
Proof.
  destruct (first_dashes argv) as [Hn|(l1 & l2 & H1 & ->)].
  - rewrite (skipn_start_none argv Hn). split; [by left|].
    intros [->|(l & _ & ->)]; [done|].
    apply Forall_app in Hn as [_ Hn]. by inversion Hn.
  - rewrite (skipn_start_dashes l1 l2 H1). split.
    + intros ->. right. by exists l1.
    + intros [H|(l & Hl & H)]; [by destruct l1|].
      assert (Hi : list_index "--" (l1 ++ "--" :: l2) = Some (length l1))
        by by apply list_index_first.
      rewrite H in Hi. rewrite (list_index_first l [] Hl) in Hi.
      apply (f_equal (@length string)) in H.
      rewrite !List.length_app in H. simpl in H.
      destruct l2; [done|]. simpl in H. inversion Hi. lia.
Qed.

Lemma main_GetResults (argv args : list string) :
  List.skipn (start argv) argv = "GetResults" :: args ->
  (length args < 6)%nat
  /\ main argv = Raise (Exn IndexError "list index out of range")
  \/ exists a0 a1 a2 a3 a4 a5 more,
       args = a0 :: a1 :: a2 :: a3 :: a4 :: a5 :: more
       /\ main argv = Ok (GetResults a0 a1 a2 a3 a4 a5).
Proof.
  intros H. unfold main. rewrite H.
  destruct args as [|a0 [|a1 [|a2 [|a3 [|a4 [|a5 more]]]]]];
    try (left; split; [simpl; lia|reflexivity]).
  right. by exists a0, a1, a2, a3, a4, a5, more.
Qed.

(** X15. The two ways in which the entry point of the script fails before
    it calls anything. It raises [ValueError] (nothing to unpack into
    [action]) exactly when the command line is empty or its first ["--"]
    is its last element; it raises [IndexError] exactly when the action is
    ["GetResults"] and fewer than six arguments follow it; it raises
    nothing else, so an unknown action, and a seventh argument or more
    after ["GetResults"], pass in silence. *)
Theorem main_raises_iff (argv : list string) :
  ((exists e, main argv = Raise e /\ exn_cls e = ValueError)
   <-> argv = [] \/ exists l, no_dashes l /\ argv = l ++ ["--"])
  /\ ((exists e, main argv = Raise e /\ exn_cls e = IndexError)
      <-> exists args,
            List.skipn (start argv) argv = "GetResults" :: args
            /\ (length args < 6)%nat)
  /\ (forall e, main argv = Raise e ->
        exn_cls e = ValueError \/ exn_cls e = IndexError).
Proof.
  rewrite <- skipn_start_nil.
  destruct (List.skipn (start argv) argv) as [|action args] eqn:Hrest.
  { assert (Hm : main argv
                 = Raise (Exn ValueError
                     "not enough values to unpack (expected at least 1, got 0)"))
      by (unfold main; by rewrite Hrest).
    rewrite Hm. split; [|split].
    - split; [done|]. intros _. by eexists.
    - split; [by intros (e & [= <-] & He)|by intros (? & ? & _)].
    - intros e [= <-]. by left. }
  destruct (decide (action = "GetResults")) as [->|Hact].
  - destruct (main_GetResults argv args Hrest)
      as [[Hlen Hm]|(a0 & a1 & a2 & a3 & a4 & a5 & more & -> & Hm)];
      rewrite Hm; (split; [|split]).
    + split; [by intros (e & [= <-] & He)|done].
    + split; [intros _; by exists args|intros _; by eexists].
    + intros e [= <-]. by right.
    + split; [by intros (e & ? & _)|done].
    + split; [by intros (e & ? & _)|].
      intros (args & [= <-] & Hlen). simpl in Hlen. lia.
    + done.
  - assert (Hm : exists c, main argv = Ok c).
    { unfold main. rewrite Hrest. apply String.eqb_neq in Hact. rewrite Hact.
      destruct (String.eqb action "FileInfo"); by eexists. }
    destruct Hm as (c & Hm). rewrite Hm. split; [|split].
    + split; [by intros (e & ? & _)|done].
    + split; [by intros (e & ? & _)|]. by intros (? & [= ? _] & _).
    + done.
Qed.

End EntryErrors.

Lemma getResults_round_trip_witness :
  exists argv,
    Results.arguments Path.posix_join
      {| Results.argv0 := "/usr/bin/blender"; Results.tempdir := "/tmp";
         Results.output := "/tmp/render_"; Results.script := "utils.py" |}
      "192.168.0.7" 8000 "12" 1920 1080 (-50) [[1; 10]; [25]]
    = Py.Ok argv
    /\ Results.main argv
       = Py.Ok (Results.GetResults "192.168.0.7" "8000" "12"
                  "1920" "1080" "-50")
    /\ Results._getResults (Net.py_int Net.int_ascii_only)
         "192.168.0.7" "8000" "12" "1920" "1080" "-50"
       = ([(Results.server_address, Results.VStr "192.168.0.7");
           (Results.server_port, Results.VInt 8000);
           (Results.job_id, Results.VStr "12");
           (Results.engine, Results.VStr "NET_RENDER");
           (Results.resolution_x, Results.VInt 1920);
           (Results.resolution_y, Results.VInt 1080);
           (Results.resolution_percentage, Results.VInt (-50));
           (Results.use_full_sample, Results.VBool false);
           (Results.use_compositing, Results.VBool false);
           (Results.use_border, Results.VBool false)], None).
Proof.
  apply (getResults_round_trip Net.int_ascii_only
           {| Results.argv0 := "/usr/bin/blender"; Results.tempdir := "/tmp";
              Results.output := "/tmp/render_"; Results.script := "utils.py" |}
           "192.168.0.7" "12" 8000 1920 1080 (-50) [[1; 10]; [25]]);
    [by repeat constructor|done..].
Defined.

Lemma getResults_dashes_in_arguments_witness :
  Results.main
    ["/usr/bin/blender"; "-b"; "-noaudio"; "/tmp/netrender_temp.blend"; "-o";
     "--"; "-P"; "utils.py"; "-f"; "3"; "--"; "GetResults"; "192.168.0.7";
     "8000"; "12"; "1920"; "1080"; "100"]
  = Py.Ok Results.NoAction.
Proof.
  apply (getResults_dashes_in_arguments
           {| Results.argv0 := "/usr/bin/blender"; Results.tempdir := "/tmp";
              Results.output := "--"; Results.script := "utils.py" |}
           "192.168.0.7" "12" 8000 1920 1080 100 [[3]]);
    [by right; left|reflexivity].
Defined.

(* ===================================================================== *)
(** * Properties of DirectoryContext *)
(* ===================================================================== *)

Section DirFacts.
Import Py Path Dir.

Lemma is_name_spec s :
  is_name s = true ->
  s <> "" /\ s <> "." /\ s <> ".."
  /\ forall_chars (fun c => negb (Ascii.eqb c sep)) s = true.
Proof.
  unfold is_name. rewrite !andb_true_iff, !negb_true_iff, !String.eqb_neq.
  tauto.
Qed.

Lemma split_char_no_sep s :
  forall_chars (fun c => negb (Ascii.eqb c sep)) s = true ->
  split_char s sep = [s].
Proof.
  induction s as [|a s IH]; simpl; [done|].
  rewrite andb_true_iff, negb_true_iff. intros [-> Hs]. by rewrite (IH Hs).
Qed.

Lemma split_char_app s t :
  forall_chars (fun c => negb (Ascii.eqb c sep)) s = true ->
  split_char (s +:+ String sep t) sep = s :: split_char t sep.
Proof.
  induction s as [|a s IH]; intros Hs.
  - rewrite append_nil. simpl. done.
  - simpl in Hs. apply andb_true_iff in Hs as [Ha Hs].
    apply negb_true_iff in Ha. rewrite append_cons. simpl. rewrite Ha.
    by rewrite (IH Hs).
Qed.

(** Splitting at the slashes undoes joining names with slashes. *)
Lemma split_join_names (names : list string) :
  names <> [] ->
  Forall (fun s => forall_chars (fun c => negb (Ascii.eqb c sep)) s = true)
    names ->
  split_char (join_char sep names) sep = names.
Proof.
  intros Hne H. induction H as [|s names Hs Hn IH]; [done|].
  destruct names as [|s' names'].
  - simpl. by apply split_char_no_sep.
  - change (join_char sep (s :: s' :: names'))
      with (s +:+ String sep (join_char sep (s' :: names'))).
    rewrite (split_char_app _ _ Hs). by rewrite IH.
Qed.

Lemma append_assoc (s t u : string) : (s +:+ t) +:+ u = s +:+ (t +:+ u).
Proof.
  induction s as [|a s IH]; [done|]. rewrite !append_cons. by rewrite IH.
Qed.

Lemma join_char_snoc (names : list string) (s : string) :
  names <> [] ->
  join_char sep (names ++ [s]) = join_char sep names +:+ String sep s.
Proof.
  intros Hne. induction names as [|a names IH]; [done|].
  destruct names as [|b names'].
  - reflexivity.
  - change (join_char sep ((a :: b :: names') ++ [s]))
      with (a +:+ String sep (join_char sep ((b :: names') ++ [s]))).
    rewrite IH by done.
    change (join_char sep (a :: b :: names'))
      with (a +:+ String sep (join_char sep (b :: names'))).
    rewrite append_assoc. by rewrite append_cons.
Qed.

Local Abbreviation no_slash :=
  (fun s : string => forall_chars (fun c => negb (Ascii.eqb c sep)) s = true).

Lemma names_no_slash (names : list string) :
  List.forallb is_name names = true -> Forall no_slash names.
Proof.
  induction names as [|s names IH]; simpl; [constructor|].
  rewrite andb_true_iff. intros [Hs Hn]. constructor; [|by apply IH].
  by destruct (is_name_spec s Hs) as (_ & _ & _ & ?).
Qed.

(** [normpath] keeps names in their order. *)
Lemma fold_normpath_names k (names acc : list string) :
  List.forallb is_name names = true ->
  List.fold_left (normpath_step k) names acc = List.rev names ++ acc.
Proof.
  revert acc. induction names as [|s names IH]; intros acc; simpl; [done|].
  rewrite andb_true_iff. intros [Hs Hn].
  destruct (is_name_spec s Hs) as (H1 & H2 & H3 & _).
  apply String.eqb_neq in H1, H2, H3.
  unfold normpath_step at 2. rewrite H1, H2, H3. simpl.
  rewrite (IH _ Hn). by rewrite <- List.app_assoc.
Qed.

Lemma endswith_char_app (t u : string) (c : ascii) :
  u <> "" -> endswith_char (t +:+ u) c = endswith_char u c.
Proof.
  intros Hu. induction t as [|a t IH]; [done|].
  rewrite append_cons. simpl. rewrite IH.
  destruct (t +:+ u) eqn:E; [|done].
  destruct t; [by rewrite append_nil in E|by rewrite append_cons in E].
Qed.

Lemma endswith_char_name (s : string) :
  is_name s = true -> endswith_char s sep = false.
Proof.
  intros Hs. destruct (is_name_spec s Hs) as (Hne & _ & _ & Hno).
  clear Hs. induction s as [|a s IH]; [done|].
  simpl in Hno. apply andb_true_iff in Hno as [Ha Hno].
  apply negb_true_iff in Ha. simpl. destruct s as [|b s]; [exact Ha|].
  by apply IH.
Qed.

(** The text of a directory: a slash and its names from the root. *)
Local Abbreviation text_of := (fun n : node => "/" +:+ join_char sep (List.rev n)).

Lemma text_of_snoc (c : string) (p : node) :
  text_of (c :: p)
  = (if bool_decide (p = []) then "/" else text_of p +:+ "/") +:+ c.
Proof.
  cbn beta. simpl List.rev. destruct p as [|c' p'].
  - reflexivity.
  - rewrite bool_decide_eq_false_2 by done.
    rewrite join_char_snoc by (simpl; by destruct (List.rev p')).
    rewrite !append_assoc. reflexivity.
Qed.

Lemma posix_join_curdir (n : node) :
  List.forallb is_name n = true ->
  posix_join (text_of n) "." = "/" +:+ join_char sep (List.rev n ++ ["."]).
Proof.
  intros Hn. unfold posix_join.
  change (startswith "." "/") with false. cbv iota.
  assert (He : String.eqb (text_of n) "" = false) by done.
  rewrite He. cbn [orb].
  destruct n as [|c p].
  - reflexivity.
  - simpl in Hn. apply andb_true_iff in Hn as [Hc Hp].
    assert (Hend : endswith_char (text_of (c :: p)) sep = false).
    { rewrite text_of_snoc. rewrite endswith_char_app.
      - by apply endswith_char_name.
      - by destruct (is_name_spec c Hc) as (? & _). }
    rewrite Hend.
    rewrite join_char_snoc by (simpl; by destruct (List.rev p)).
    by rewrite append_assoc.
Qed.

Lemma join_first_char (s : string) (names : list string) (a : ascii) (r : string) :
  s = String a r ->
  exists r', join_char sep (s :: names) = String a r'.
Proof.
  intros ->. destruct names as [|s' names']; [by eexists|].
  by exists (r +:+ String sep (join_char sep (s' :: names'))).
Qed.

Lemma name_first_char (s : string) :
  is_name s = true -> exists a r, s = String a r /\ Ascii.eqb a sep = false.
Proof.
  intros Hs. destruct (is_name_spec s Hs) as (Hs1 & _ & _ & Hno).
  destruct s as [|a s]; [done|]. simpl in Hno.
  apply andb_true_iff in Hno as [Ha _]. apply negb_true_iff in Ha.
  by exists a, s.
Qed.

Lemma fold_normpath_curdir (names : list string) :
  List.forallb is_name names = true ->
  List.fold_left (normpath_step 1) ("" :: names ++ ["."]) [] = List.rev names.
Proof.
  intros Hn. cbn [List.fold_left]. change (normpath_step 1 [] "") with (@nil string).
  rewrite List.fold_left_app, (fold_normpath_names 1 names [] Hn).
  rewrite List.app_nil_r. reflexivity.
Qed.

(** [normpath] of the names of a directory followed by [.] gives the
    names. *)
Lemma normpath_names_curdir (names : list string) :
  List.forallb is_name names = true ->
  posix_normpath ("/" +:+ join_char sep (names ++ ["."]))
  = "/" +:+ join_char sep names.
Proof.
  intros Hn.
  assert (Hfirst : exists a r, join_char sep (names ++ ["."]) = String a r
                               /\ Ascii.eqb a sep = false).
  { destruct names as [|s names'].
    - by exists "."%char, "".
    - simpl in Hn. apply andb_true_iff in Hn as [Hs _].
      destruct (name_first_char s Hs) as (a & r & Hs' & Ha).
      destruct (join_first_char s (names' ++ ["."]) a r Hs') as (r' & Hj).
      exists a, r'. by split. }
  destruct Hfirst as (a & r & Hj & Ha).
  assert (Hsplit : split_char ("/" +:+ join_char sep (names ++ ["."])) sep
                   = "" :: names ++ ["."]).
  { change ("/" +:+ join_char sep (names ++ ["."]))
      with ("" +:+ String sep (join_char sep (names ++ ["."]))).
    rewrite split_char_app by done. f_equal. apply split_join_names.
    - by destruct names.
    - apply Forall_app. split; [by apply names_no_slash|]. by repeat constructor. }
  assert (E2 : startswith (String "/" (String a r)) "//" = false).
  { unfold startswith.
    cbn [String.prefix].
    destruct (ascii_dec "/" a) as [<-|_]; [discriminate Ha|].
    by destruct (ascii_dec "/" "/"). }
  unfold posix_normpath. cbv zeta. rewrite Hsplit, Hj.
  change ("/" +:+ String a r) with (String "/" (String a r)).
  change (String.eqb (String "/" (String a r)) "") with false.
  change (startswith (String "/" (String a r)) "/") with true.
  rewrite E2. cbn [andb]. cbv iota.
  rewrite (fold_normpath_curdir names Hn), List.rev_involutive.
  reflexivity.
Qed.

Lemma reachable_is_dir (fs : posix_fs) (n : node) :
  reachable_dir fs n = true -> is_dir fs n = true.
Proof.
  unfold reachable_dir. rewrite andb_true_iff. intros [Hl _].
  destruct n; cbn [lineage List.forallb] in Hl;
    by apply andb_true_iff in Hl as [? _].
Qed.

(** [os.path.abspath(os.curdir)] is the text of the working directory. *)
Lemma abspath_curdir (fs : posix_fs) :
  reachable_dir fs (cwd fs) = true ->
  abspath fs "." = Ok (text_of (cwd fs)).
Proof.
  intros Hr. pose proof (reachable_is_dir fs (cwd fs) Hr) as Hd.
  unfold reachable_dir in Hr. apply andb_true_iff in Hr as [Hl Hn].
  unfold abspath, getcwd. change (posix_isabs ".") with false. cbv iota.
  rewrite Hd. rewrite (posix_join_curdir _ Hn).
  rewrite normpath_names_curdir; [done|].
  rewrite List.forallb_forall in *. intros x Hx. apply Hn. by apply List.in_rev.
Qed.

Lemma reachable_parent (fs : posix_fs) (c : string) (p : node) :
  reachable_dir fs (c :: p) = true ->
  is_name c = true /\ is_dir fs (c :: p) = true /\ reachable_dir fs p = true.
Proof.
  unfold reachable_dir. cbn [lineage List.forallb].
  rewrite !andb_true_iff. tauto.
Qed.

(** Resolution from the root follows the names of a directory that is
    there. *)
Lemma walk_names (fs : posix_fs) (n : node) :
  reachable_dir fs n = true -> walk fs [] (List.rev n) = Ok n.
Proof.
  induction n as [|c p IH]; intros Hr; [done|].
  destruct (reachable_parent fs c p Hr) as (Hc & Hd & Hp).
  simpl List.rev. rewrite walk_app, (IH Hp). simpl.
  pose proof (reachable_is_dir fs p Hp) as Hdp.
  unfold node_exists at 1. rewrite Hdp. simpl.
  destruct (is_name_spec c Hc) as (H1 & H2 & H3 & _).
  apply String.eqb_neq in H1, H2, H3. rewrite H1, H2, H3. simpl.
  unfold node_exists. by rewrite Hd.
Qed.

Lemma start_text (fs : posix_fs) (t : string) : start fs ("/" +:+ t) = [].
Proof.
  unfold start, startswith. change ("/" +:+ t) with (String "/" t).
  cbn [String.prefix]. destruct (ascii_dec "/" "/"); [|done]. by destruct t.
Qed.

Lemma walk_text (fs : posix_fs) (n : node) :
  List.forallb is_name n = true ->
  walk fs (start fs (text_of n)) (split_char (text_of n) sep)
  = walk fs [] (List.rev n ++ List.repeat "" (if bool_decide (n = []) then 1 else 0)).
Proof.
  intros Hn. cbn beta. rewrite start_text.
  change ("/" +:+ join_char sep (List.rev n))
    with ("" +:+ String sep (join_char sep (List.rev n))).
  rewrite split_char_app by done.
  assert (Hroot : forall l, walk fs [] ("" :: l) = walk fs [] l) by done.
  rewrite Hroot. destruct n as [|c p].
  - reflexivity.
  - rewrite bool_decide_eq_false_2 by done. simpl List.repeat.
    rewrite List.app_nil_r. rewrite split_join_names; [done| |].
    + simpl. by destruct (List.rev p).
    + apply names_no_slash. rewrite List.forallb_forall in *.
      intros x Hx. apply Hn. by apply List.in_rev.
Qed.

(** [os.chdir] to the text of a directory that is there goes to it. *)
Lemma chdir_text (fs : posix_fs) (n : node) :
  reachable_dir fs n = true ->
  chdir (text_of n) fs = (Ok tt, set_cwd fs n).
Proof.
  intros Hr. unfold chdir.
  assert (He : String.eqb (text_of n) "" = false) by done. rewrite He.
  assert (Hn : List.forallb is_name n = true).
  { unfold reachable_dir in Hr. by apply andb_true_iff in Hr as [_ ?]. }
  rewrite (walk_text fs n Hn), walk_app, (walk_names fs n Hr).
  rewrite walk_empty_tail by by apply reachable_is_dir.
  by rewrite (reachable_is_dir fs n Hr).
Qed.

(** [os.chdir] to the text of a directory that was removed, under
    directories that are still there, fails. *)
Lemma chdir_text_gone (fs : posix_fs) (c : string) (p : node) :
  is_name c = true -> reachable_dir fs p = true ->
  node_exists fs (c :: p) = false ->
  chdir (text_of (c :: p)) fs = (Raise enoent, fs).
Proof.
  intros Hc Hp Hgone. unfold chdir.
  assert (He : String.eqb (text_of (c :: p)) "" = false) by done. rewrite He.
  assert (Hn : List.forallb is_name (c :: p) = true).
  { simpl. rewrite Hc. unfold reachable_dir in Hp.
    by apply andb_true_iff in Hp as [_ ?]. }
  rewrite (walk_text fs (c :: p) Hn).
  rewrite bool_decide_eq_false_2 by done. simpl List.repeat.
  rewrite List.app_nil_r. simpl List.rev.
  rewrite walk_app, (walk_names fs p Hp). simpl.
  pose proof (reachable_is_dir fs p Hp) as Hdp.
  unfold node_exists at 1. rewrite Hdp. simpl.
  destruct (is_name_spec c Hc) as (H1 & H2 & H3 & _).
  apply String.eqb_neq in H1, H2, H3. rewrite H1, H2, H3. simpl.
  by rewrite Hgone.
Qed.

(** X16. [with DirectoryContext(path): body] on a POSIX host whose working
    directory is there. When [os.chdir(path)] fails, its exception goes
    to the caller, the body does not run and the working directory is
    unchanged. When it succeeds, the body runs in the directory of
    [path]; and if the old working directory is still there after the
    body (whatever else the body made, removed or changed to), the block
    ends as the body ended, with its value or its exception, in the old
    working directory. *)
Theorem DirectoryContext_restores {A : Type} (path : string)
    (body : Ctx.M posix_fs A) (fs : posix_fs) :
  reachable_dir fs (cwd fs) = true ->
  (forall e fs', chdir path fs = (Raise e, fs') ->
     DirectoryContext path body fs = (Raise e, fs))
  /\ (forall fs1 r fs2,
        chdir path fs = (Ok tt, fs1) ->
        body fs1 = (r, fs2) ->
        reachable_dir fs2 (cwd fs) = true ->
        DirectoryContext path body fs = (r, set_cwd fs2 (cwd fs))).
Proof.
  intros Hr. unfold DirectoryContext, enter.
  rewrite (abspath_curdir fs Hr). split.
  - intros e fs' Hc. rewrite Hc. f_equal.
    unfold chdir in Hc. repeat case_match; by simplify_eq.
  - intros fs1 r fs2 Hc Hb Hr2. rewrite Hc. unfold Ctx.with_. rewrite Hb.
    by rewrite (chdir_text fs2 (cwd fs) Hr2).
Qed.

(** X17. When the body of [with DirectoryContext(path)] leaves the old
    working directory removed (the directories above it still there),
    [__exit__] raises [FileNotFoundError]: it takes the place of the value
    or the exception of the body, and the process stays in the directory
    where the body left it. *)
Theorem DirectoryContext_exit_raises {A : Type} (path : string)
    (body : Ctx.M posix_fs A) (fs fs1 fs2 : posix_fs) (r : result A)
    (c : string) (p : node) :
  cwd fs = c :: p ->
  reachable_dir fs (cwd fs) = true ->
  chdir path fs = (Ok tt, fs1) ->
  body fs1 = (r, fs2) ->
  reachable_dir fs2 p = true ->
  node_exists fs2 (c :: p) = false ->
  DirectoryContext path body fs = (Raise enoent, fs2).
Proof.
  intros Hcwd Hr Hc Hb Hp Hgone. unfold DirectoryContext, enter.
  rewrite (abspath_curdir fs Hr), Hc. unfold Ctx.with_. rewrite Hb.
  rewrite Hcwd in *. destruct (reachable_parent fs c p Hr) as (Hname & _ & _).
  by rewrite (chdir_text_gone fs2 c p Hname Hp Hgone).
Qed.

End DirFacts.

Lemma DirectoryContext_restores_witness :
  Dir.DirectoryContext "/tmp/job" Dir.make_proj Dir.home_fs
  = (Py.Ok tt,
     Dir.set_cwd
       (snd (Dir.make_proj (Dir.set_cwd Dir.home_fs ["job"; "tmp"])))
       ["home"]).
Proof.
  apply (proj2 (DirectoryContext_restores "/tmp/job" Dir.make_proj Dir.home_fs
                  ltac:(vm_compute; reflexivity))
           (Dir.set_cwd Dir.home_fs ["job"; "tmp"]) (Py.Ok tt)
           (snd (Dir.make_proj (Dir.set_cwd Dir.home_fs ["job"; "tmp"]))));
    vm_compute; reflexivity.
Defined.

Lemma DirectoryContext_exit_raises_witness :
  Dir.DirectoryContext "/tmp/job" Dir.remove_home Dir.home_fs
  = (Py.Raise Path.enoent,
     Dir.without_dir (Dir.set_cwd Dir.home_fs ["job"; "tmp"]) ["home"]).
Proof.
  apply (DirectoryContext_exit_raises "/tmp/job" Dir.remove_home Dir.home_fs
           (Dir.set_cwd Dir.home_fs ["job"; "tmp"])
           (Dir.without_dir (Dir.set_cwd Dir.home_fs ["job"; "tmp"]) ["home"])
           (Py.Raise (Py.Exn Py.ValueError "body")) "home" []);
    vm_compute; reflexivity.
Defined.

(* ===================================================================== *)
(** * Further properties of prefixPath *)
(* ===================================================================== *)

Section PrefixTextFacts.
Import Py Path.

Lemma startswith_app (pre t : string) : startswith (pre +:+ t) pre = true.
Proof.
  unfold startswith. induction pre as [|a pre IH].
  - rewrite append_nil. by destruct t.
  - rewrite append_cons. cbn [String.prefix].
    by destruct (ascii_dec a a).
Qed.

Lemma drop_past_prefix (pre : string) (c : ascii) (t : string) :
  drop (len pre + 1) (pre +:+ String c t) = t.
Proof.
  unfold len. induction pre as [|a pre IH]; [by destruct t|].
  rewrite append_cons. exact IH.
Qed.

(** X18. [prefixPath] compares [prefix_path] with the directory of the
    file as texts, and takes what follows the text and one more
    character for the remainder. On a POSIX host, when the directory [p]
    of a file that is to be remapped is [prefix_path], a character, a
    slash and a rest (as for [p = "/ab/c"] and [prefix_path = "/a"]), the
    remainder is the absolute path of the slash and the rest, which
    [os.path.join] returns alone: the directory that is looked for, and
    made when missing, and the path returned are under [/rest] and do not
    depend on [prefix_directory]. *)
Theorem prefixPath_text_prefix_escapes
    (prefix_directory file_path prefix_path : string) (c : ascii)
    (rest n : string) (force : bool) (fs : posix_fs) :
  prefix_path <> "" ->
  is_absolute (host := posix) file_path = Ok true ->
  force || negb (posix_exists fs file_path) = true ->
  posix_split (posix_normpath file_path)
  = (prefix_path +:+ String c (String sep rest), n) ->
  prefixPath (host := posix) prefix_directory file_path prefix_path force fs
  = match ensure_directory (host := posix) fs (String sep rest) with
    | Raise e => Raise e
    | Ok fs' => Ok (posix_join (String sep rest) n, fs')
    end.
Proof.
  intros Hne Habs Hex Hsplit. unfold prefixPath. rewrite Habs.
  cbn [exists_ split normpath join posix]. rewrite Hex, Hsplit.
  apply String.eqb_neq in Hne. rewrite Hne. cbn [negb andb].
  rewrite startswith_app.
  assert (Hlen : (len prefix_path
                  <? len (prefix_path +:+ String c (String sep rest)))%nat
                 = true).
  { apply Nat.ltb_lt. unfold len. rewrite length_app. simpl. lia. }
  rewrite Hlen, drop_past_prefix.
  assert (Hjoin : posix_join prefix_directory (String sep rest)
                  = String sep rest).
  { unfold posix_join, startswith. cbn [String.prefix].
    destruct (ascii_dec "/" sep); [by destruct rest|done]. }
  by rewrite Hjoin.
Qed.

End PrefixTextFacts.

Lemma prefixPath_text_prefix_escapes_witness :
  Path.prefixPath (host := Path.posix) "/tmp/job" "/ab/c/scene.blend" "/a"
    false Path.job_fs
  = Py.Ok ("/c/scene.blend",
           Path.fs_of [["tmp"]; ["tmp"; "job"]; ["c"]] [] []).
Proof.
  etrans.
  - apply (prefixPath_text_prefix_escapes "/tmp/job" "/ab/c/scene.blend" "/a"
             "b" "c" "scene.blend" false Path.job_fs);
      [done|vm_compute; reflexivity..].
  - vm_compute. reflexivity.
Defined.

(* ===================================================================== *)
(** * Syntactic absoluteness in prefixPath *)
(* ===================================================================== *)

Section NtFacts.
Import Py Path.









End NtFacts.

Section Absoluteness.
Import Py Path.



End Absoluteness.


